(** * EV chargers / ULEV registrations analysis (main.py)

    A shallow embedding of the data pipeline of [main.py]: the cleaning of
    the charge-point registry, the yearly aggregates, the derived columns of
    the vehicle table, the inner join on the year and the cars-to-chargers
    ratio.

    Modelling conventions.
    - A pandas missing value (NaN / NaT) is [None]; a present value is [Some].
    - A frame that keeps its index labels is a list of (label, row) pairs.
    - A cell of the vehicle table is an int64: a [Z] whose sums wrap around
      at 64 bits, as written out in [wrap64].  A count of registry rows is a
      [Z] without wrap-around: it cannot exceed the number of rows held in
      memory.  A float64 quotient is its exact rational value, or one of the
      IEEE special values.
    - An exception that aborts the script is a [Raise] result.
    - Of the plotting section, the reads of columns by name are modelled,
      since a missing column stops the script; printing and drawing change
      no frame and are left out, and so are the [latitude] and [longitude]
      columns, which only the map plot reads. *)

From Stdlib Require Import String Ascii Bool ZArith QArith Lia List Sorted Permutation.
Import ListNotations.

#[local] Open Scope string_scope.
#[local] Open Scope Z_scope.

(** ** Exceptions *)

Inductive exn : Type :=
| KeyError (name : string)
| ValueError
| IndexError
| ParserError.

Inductive result (A : Type) : Type :=
| Ok (a : A)
| Raise (e : exn).

Arguments Ok {A} a.
Arguments Raise {A} e.

Definition bind {A B : Type} (m : result A) (k : A -> result B) : result B :=
  match m with
  | Ok a => k a
  | Raise e => Raise e
  end.

Notation "x <- m ;; k" := (bind m (fun x => k))
  (at level 61, m at next level, right associativity).

Definition raises {A : Type} (m : result A) : Prop := exists e, m = Raise e.

Fixpoint mapM {A B : Type} (f : A -> result B) (l : list A) : result (list B) :=
  match l with
  | [] => Ok []
  | a :: l' => b <- f a ;; bs <- mapM f l' ;; Ok (b :: bs)
  end.

(** ** The charge-point registry *)

(** One line of the registry, restricted to the columns of [usecols] that the
    computation reads. *)
Record Charger : Type := {
  chargeDeviceID : option string;
  chargeDeviceStatus : option string;
  dateCreated : option string
}.

(** A frame with its index labels. *)
Definition frame (R : Type) : Type := list (nat * R).

(** [pd.read_csv] gives the rows the default index 0, 1, 2, ... *)
Definition read_csv (rows : list Charger) : frame Charger :=
  combine (seq 0 (length rows)) rows.

Definition notna {A : Type} (o : option A) : bool :=
  match o with
  | Some _ => true
  | None => false
  end.

(** [series == value] on a column of strings: a missing value compares
    unequal to everything. *)
Definition eq_str (o : option string) (v : string) : bool :=
  match o with
  | Some s => String.eqb s v
  | None => false
  end.

Definition zero_date : string := "0000-00-00 00:00:00".

(** [data_ev_chargers[data_ev_chargers['dateCreated'] == '0000-00-00 00:00:00'].index] *)
Definition index_list (df : frame Charger) : list nat :=
  map fst (filter (fun lr => eq_str (dateCreated (snd lr)) zero_date) df).

Definition has_label {R : Type} (df : frame R) (l : nat) : bool :=
  existsb (fun lr => Nat.eqb (fst lr) l) df.

(** [df.drop(labels)]: every row carrying one of the labels goes; a label
    that the index lacks is a [KeyError]. *)
Definition drop {R : Type} (labels : list nat) (df : frame R) : result (frame R) :=
  if forallb (has_label df) labels
  then Ok (filter (fun lr => negb (existsb (Nat.eqb (fst lr)) labels)) df)
  else Raise (KeyError "labels").

(** Lines 46-47. *)
Definition clean (df : frame Charger) : result (frame Charger) :=
  drop (index_list df) df.

(** ** The year of creation *)

(** A cleaned registry row with the derived column [yearCreated]. *)
Record ChargerY : Type := {
  charger :> Charger;
  yearCreated : option Z
}.

Section Year.

(** The year pandas reads from a timestamp string, [None] when it rejects
    the string. *)
Variable parse_year : string -> option Z.

(** [pd.DatetimeIndex(column).year] for one entry: a missing entry is NaT
    and has no year, a rejected string aborts the conversion. *)
Definition year_of (o : option string) : result (option Z) :=
  match o with
  | None => Ok None
  | Some s =>
      match parse_year s with
      | Some y => Ok (Some y)
      | None => Raise ParserError
      end
  end.

(** Line 54. *)
Definition add_yearCreated (df : frame Charger) : result (frame ChargerY) :=
  mapM (fun lr =>
          y <- year_of (dateCreated (snd lr)) ;;
          Ok (fst lr, {| charger := snd lr; yearCreated := y |})) df.

End Year.

(** ** Yearly aggregates *)

(** Group keys come out sorted and without repetition. *)
Fixpoint insert_key (k : Z) (ks : list Z) : list Z :=
  match ks with
  | [] => [k]
  | k' :: rest =>
      if k <? k' then k :: ks
      else if k =? k' then ks
      else k' :: insert_key k rest
  end.

(** The keys of [groupby]: the present values of the column, ascending; rows
    with a missing key belong to no group. *)
Fixpoint group_keys (col : list (option Z)) : list Z :=
  match col with
  | [] => []
  | Some k :: rest => insert_key k (group_keys rest)
  | None :: rest => group_keys rest
  end.

Definition year_is (k : Z) (r : ChargerY) : bool :=
  match yearCreated r with
  | Some y => y =? k
  | None => false
  end.

(** The number of entries that pass a test. *)
Definition count_where {A : Type} (f : A -> bool) (l : list A) : Z :=
  Z.of_nat (length (filter f l)).

(** [count()] of the [chargeDeviceID] column within the group of key [k]:
    the entries that are present. *)
Definition group_count (df : frame ChargerY) (k : Z) : Z :=
  count_where (fun lr => year_is k (snd lr) && notna (chargeDeviceID (snd lr))) df.

(** [df.groupby('yearCreated')['chargeDeviceID'].count().reset_index(...)] *)
Definition groupby_count (df : frame ChargerY) : list (Z * Z) :=
  map (fun k => (k, group_count df k)) (group_keys (map (fun lr => yearCreated (snd lr)) df)).

(** [.sum()] of a list of integers. *)
Definition total (xs : list Z) : Z := fold_right Z.add 0 xs.

Fixpoint cumsum_from (acc : Z) (xs : list Z) : list Z :=
  match xs with
  | [] => []
  | x :: rest => (acc + x) :: cumsum_from (acc + x) rest
  end.

Definition cumsum (xs : list Z) : list Z := cumsum_from 0 xs.

(** A row of [chargers_installed]. *)
Record YearCount : Type := {
  yc_yearCreated : Z;
  num_charges : Z;
  rollingSUM : Z
}.

(** Lines 57-58. *)
Definition chargers_installed (df : frame ChargerY) : list YearCount :=
  let counts := groupby_count df in
  map (fun cs => {| yc_yearCreated := fst (fst cs);
                    num_charges := snd (fst cs);
                    rollingSUM := snd cs |})
      (combine counts (cumsum (map snd counts))).

(** [(status == 'In service') & (yearCreated != 2021)]: a missing status is
    not 'In service', a missing year differs from 2021. *)
Definition in_service_before_2021 (r : ChargerY) : bool :=
  eq_str (chargeDeviceStatus r) "In service"
  && match yearCreated r with
     | Some y => negb (y =? 2021)
     | None => true
     end.

(** A row of the aggregated [ev_chargers_in_service]. *)
Record InServiceCount : Type := {
  is_yearCreated : Z;
  num_charges_in_service : Z;
  rollingSUM_in_service : Z
}.

(** Lines 168-175. *)
Definition ev_chargers_in_service (df : frame ChargerY) : list InServiceCount :=
  let selected := filter (fun lr => in_service_before_2021 (snd lr)) df in
  let counts := groupby_count selected in
  map (fun cs => {| is_yearCreated := fst (fst cs);
                    num_charges_in_service := snd (fst cs);
                    rollingSUM_in_service := snd cs |})
      (combine counts (cumsum (map snd counts))).

(** Line 176. *)
Definition chargers_avail (df : frame ChargerY) : list Z :=
  map rollingSUM_in_service (ev_chargers_in_service df).

(** ** The vehicle table *)

(** The spreadsheet as pandas holds it: the column names and, per row, one
    cell per column. *)
Record DataFrame : Type := {
  columns : list string;
  rows : list (list Z)
}.

Fixpoint index_of (name : string) (cols : list string) : option nat :=
  match cols with
  | [] => None
  | c :: rest =>
      if String.eqb c name then Some O
      else option_map S (index_of name rest)
  end.

Definition cell (j : nat) (row : list Z) : Z := nth j row 0.

(** [df[name]] *)
Definition getitem (name : string) (df : DataFrame) : result (list Z) :=
  match index_of name (columns df) with
  | Some j => Ok (map (cell j) (rows df))
  | None => Raise (KeyError name)
  end.

Fixpoint set_cell (j : nat) (v : Z) (row : list Z) : list Z :=
  match j, row with
  | _, [] => []
  | O, _ :: rest => v :: rest
  | S j', c :: rest => c :: set_cell j' v rest
  end.

(** [df[name] = col]: an existing column is overwritten in place, a new one
    is appended on the right. *)
Definition setitem (name : string) (col : list Z) (df : DataFrame) : DataFrame :=
  match index_of name (columns df) with
  | Some j =>
      {| columns := columns df;
         rows := map (fun rv => set_cell j (snd rv) (fst rv)) (combine (rows df) col) |}
  | None =>
      {| columns := (columns df ++ [name])%list;
         rows := map (fun rv => (fst rv ++ [snd rv])%list) (combine (rows df) col) |}
  end.

(** [df.iloc[:, a:b]], row by row. *)
Definition iloc_cols (a b : nat) (df : DataFrame) : list (list Z) :=
  map (fun row => firstn (b - a) (skipn a row)) (rows df).

(** The signed 64-bit value that an integer wraps around to. *)
Definition wrap64 (z : Z) : Z := (z + 2 ^ 63) mod 2 ^ 64 - 2 ^ 63.

(** The values that an int64 holds. *)
Definition in_int64 (z : Z) : Prop := - 2 ^ 63 <= z < 2 ^ 63.

(** int64 addition. *)
Definition add64 (a b : Z) : Z := wrap64 (a + b).

(** The int64 sum of a row of cells. *)
Definition total64 (xs : list Z) : Z := fold_left add64 xs 0.

(** [.sum(axis=1)] of a block of int64 cells. *)
Definition sum_axis1 (block : list (list Z)) : list Z :=
  map total64 block.

(** [.cumsum()] of an int64 column. *)
Fixpoint cumsum64_from (acc : Z) (xs : list Z) : list Z :=
  match xs with
  | [] => []
  | x :: rest => add64 acc x :: cumsum64_from (add64 acc x) rest
  end.

Definition cumsum64 (xs : list Z) : list Z := cumsum64_from 0 xs.

(** Line 65. *)
Definition add_otherULEVs (df : DataFrame) : DataFrame :=
  setitem "otherULEVs" (sum_axis1 (iloc_cols 3 7 df)) df.

(** Line 68. *)
Definition add_plug_rollingSUM (df : DataFrame) : DataFrame :=
  setitem "plug_rollingSUM" (cumsum64 (sum_axis1 (iloc_cols 1 3 df))) df.

(** [data_ev_cars] after lines 65 and 68. *)
Definition derive_cars (df : DataFrame) : DataFrame :=
  add_plug_rollingSUM (add_otherULEVs df).

(** ** The join on the year *)

(** A row of [ev_merged]: the columns of the yearly aggregate, then those of
    the vehicle table. *)
Record MergedFrame : Type := {
  right_columns : list string;
  merged_rows : list (YearCount * list Z)
}.

(** [left.merge(right, how='inner', left_on='yearCreated', right_on='Date')]:
    the rows of the left table in their order, each paired with every row of
    the right table that has its key. *)
Definition merge (left : list YearCount) (right : DataFrame) : result MergedFrame :=
  match index_of "Date" (columns right) with
  | None => Raise (KeyError "Date")
  | Some j =>
      Ok {| right_columns := columns right;
            merged_rows :=
              flat_map (fun l =>
                          map (pair l)
                              (filter (fun r => cell j r =? yc_yearCreated l) (rows right)))
                       left |}
  end.

(** [ev_merged[name]] for a column that comes from the vehicle table. *)
Definition merged_getitem (name : string) (m : MergedFrame) : result (list Z) :=
  match index_of name (right_columns m) with
  | Some j => Ok (map (fun lr => cell j (snd lr)) (merged_rows m))
  | None => Raise (KeyError name)
  end.

(** Line 137, with [data_ev_cars] as lines 65 and 68 left it. *)
Definition ev_merged (df : frame ChargerY) (data_ev_cars : DataFrame) : result MergedFrame :=
  merge (chargers_installed df) data_ev_cars.

(** Line 165. *)
Definition plug_array (df : frame ChargerY) (data_ev_cars : DataFrame) : result (list Z) :=
  m <- ev_merged df data_ev_cars ;;
  merged_getitem "plug_rollingSUM" m.

(** ** The ratio *)

(** A float64: a finite value, held as the exact rational it rounds, or one
    of the special values. *)
Inductive float64 : Type :=
| Finite (q : Q)
| PosInf
| NegInf
| NaN.

Definition is_finite (x : float64) : bool :=
  match x with
  | Finite _ => true
  | _ => false
  end.

(** numpy's division of two integers: a zero divisor gives a signed infinity
    or NaN (and a warning), never an exception. *)
Definition true_divide (a b : Z) : float64 :=
  if b =? 0 then
    if 0 <? a then PosInf
    else if a <? 0 then NegInf
    else NaN
  else Finite (Qred (inject_Z a / inject_Z b)).

Fixpoint zip_with {A B C : Type} (f : A -> B -> C) (xs : list A) (ys : list B) : list C :=
  match xs, ys with
  | x :: xs', y :: ys' => f x y :: zip_with f xs' ys'
  | _, _ => []
  end.

(** [xs / ys] on one-dimensional arrays: equal lengths divide position by
    position, an array of length one is stretched over the other, any other
    pair of lengths is a [ValueError]. *)
Definition np_divide (xs ys : list Z) : result (list float64) :=
  if Nat.eqb (length xs) (length ys) then Ok (zip_with true_divide xs ys)
  else
    match xs, ys with
    | [x], _ => Ok (map (true_divide x) ys)
    | _, [y] => Ok (map (fun x => true_divide x y) xs)
    | _, _ => Raise ValueError
    end.

(** [a[i]] for a non-negative position. *)
Definition item {A : Type} (a : list A) (i : nat) : result A :=
  match nth_error a i with
  | Some v => Ok v
  | None => Raise IndexError
  end.

(** Line 179. *)
Definition ratio (df : frame ChargerY) (data_ev_cars : DataFrame) : result (list float64) :=
  p <- plug_array df data_ev_cars ;;
  np_divide p (chargers_avail df).

(** Line 182: the value stored under the key '2020'. *)
Definition ratio_2020_dict (df : frame ChargerY) (data_ev_cars : DataFrame)
  : result (string * float64) :=
  r <- ratio df data_ev_cars ;;
  v <- item r 8 ;;
  Ok ("2020", v).

(** [data_ev_chargers] after line 54, from the lines of the registry file. *)
Definition prepare (parse_year : string -> option Z) (registry : list Charger)
  : result (frame ChargerY) :=
  cleaned <- clean (read_csv registry) ;;
  add_yearCreated parse_year cleaned.

(** [ev_merged[name]] for a column that comes from the yearly aggregate: the
    merge renames it when the vehicle table has a column of the same name,
    and the plain name is then no column of the joined table. *)
Definition merged_left_getitem (name : string) (col : YearCount -> Z) (m : MergedFrame)
  : result (list Z) :=
  if existsb (String.eqb name) (right_columns m) then Raise (KeyError name)
  else Ok (map (fun lr => col (fst lr)) (merged_rows m)).

(** The reads of the plotting section that can stop the script: lines
    117-120 read four columns of [data_ev_cars] by name, lines 143-145 four
    columns of [ev_merged]. *)
Definition plot_reads (df : frame ChargerY) (data_ev_cars : DataFrame) : result unit :=
  x <- getitem "Date" data_ev_cars ;;
  y1 <- getitem "Battery Electric" data_ev_cars ;;
  y2 <- getitem "Plug-in Hybrid Electric 2" data_ev_cars ;;
  y3 <- getitem "otherULEVs" data_ev_cars ;;
  m <- ev_merged df data_ev_cars ;;
  x' <- merged_getitem "Date" m ;;
  y1' <- merged_left_getitem "num_charges" num_charges m ;;
  bev <- merged_getitem "Battery Electric" m ;;
  phev <- merged_getitem "Plug-in Hybrid Electric 2" m ;;
  Ok tt.

(** The script from the two inputs to the printed dictionary: the
    preparation of the registry, the two derived columns, the reads of the
    plotting section and the ratio. *)
Definition main (parse_year : string -> option Z)
  (registry : list Charger) (veh0171 : DataFrame) : result (string * float64) :=
  data_ev_chargers <- prepare parse_year registry ;;
  shown <- plot_reads data_ev_chargers (derive_cars veh0171) ;;
  ratio_2020_dict data_ev_chargers (derive_cars veh0171).

(** ** A concrete timestamp reader *)

Definition digit_of (c : ascii) : option Z :=
  let n := Z.of_nat (nat_of_ascii c) in
  if (48 <=? n) && (n <=? 57) then Some (n - 48) else None.

Definition two_digits (a b : ascii) : option Z :=
  match digit_of a, digit_of b with
  | Some x, Some y => Some (10 * x + y)
  | _, _ => None
  end.

Definition is_leap (y : Z) : bool :=
  ((y mod 4 =? 0) && negb (y mod 100 =? 0)) || (y mod 400 =? 0).

Definition days_in_month (y m : Z) : Z :=
  if m =? 2 then (if is_leap y then 29 else 28)
  else if (m =? 4) || (m =? 6) || (m =? 9) || (m =? 11) then 30
  else 31.

(** The days that a pandas timestamp holds in full: from 1677-09-22 to
    2262-04-10. *)
Definition in_timestamp_span (y m d : Z) : bool :=
  ((1677 <? y) || ((y =? 1677) && ((9 <? m) || ((m =? 9) && (21 <? d)))))
  && ((y <? 2262) || ((y =? 2262) && ((m <? 4) || ((m =? 4) && (d <? 11))))).

Definition timestamp_fields (s : string) : option (Z * Z * Z * Z * Z * Z) :=
  match list_ascii_of_string s with
  | [y1; y2; y3; y4; s1; m1; m2; s2; d1; d2; s3; h1; h2; s4; n1; n2; s5; c1; c2] =>
      if Ascii.eqb s1 "-" && Ascii.eqb s2 "-" && Ascii.eqb s3 " "
         && Ascii.eqb s4 ":" && Ascii.eqb s5 ":"
      then
        match two_digits y1 y2, two_digits y3 y4, two_digits m1 m2 with
        | Some yh, Some yl, Some m =>
            match two_digits d1 d2, two_digits h1 h2, two_digits n1 n2, two_digits c1 c2 with
            | Some d, Some h, Some n, Some c => Some (100 * yh + yl, m, d, h, n, c)
            | _, _, _, _ => None
            end
        | _, _, _ => None
        end
      else None
  | _ => None
  end.

(** A reader for the registry's own format: the year of a string written
    exactly 'YYYY-MM-DD hh:mm:ss' that names a day of the calendar, a time of
    the day and a moment that a pandas timestamp can hold.  It stands for
    pandas on such strings only: pandas reads other formats too, which this
    reader declines. *)
Definition iso_year (s : string) : option Z :=
  match timestamp_fields s with
  | Some (y, m, d, h, n, c) =>
      if (1 <=? m) && (m <=? 12) && (1 <=? d) && (d <=? days_in_month y m)
         && (h <? 24) && (n <? 60) && (c <? 60) && in_timestamp_span y m d
      then Some y
      else None
  | None => None
  end.

(** ** Vocabulary of the statements *)

(** The row has a year and the year is one of [ks]. *)
Definition year_in (ks : list Z) (r : ChargerY) : bool :=
  match yearCreated r with
  | Some y => existsb (Z.eqb y) ks
  | None => false
  end.

(** The row is one that [groupby(...).count()] counts: it has a year, so it
    belongs to a group, and it has a device ID. *)
Definition counted (r : ChargerY) : bool :=
  notna (yearCreated r) && notna (chargeDeviceID r).

(** Every row of the frame has one cell per column. *)
Definition rectangular (df : DataFrame) : Prop :=
  Forall (fun row => length row = length (columns df)) (rows df).

(** Each entry of a column is at least the one before it. *)
Definition non_decreasing (xs : list Z) : Prop :=
  forall i a b, nth_error xs i = Some a -> nth_error xs (S i) = Some b -> a <= b.

(** The in-service aggregate as the specification words it: the selected
    rows grouped by year, the rows of each group counted. *)
Definition in_service_row_counts (df : frame ChargerY) : list InServiceCount :=
  let selected := filter (fun lr => in_service_before_2021 (snd lr)) df in
  let keys := group_keys (map (fun lr => yearCreated (snd lr)) selected) in
  let counts :=
    map (fun k => (k, count_where (fun lr => year_is k (snd lr)) selected)) keys in
  map (fun cs => {| is_yearCreated := fst (fst cs);
                    num_charges_in_service := snd (fst cs);
                    rollingSUM_in_service := snd cs |})
      (combine counts (cumsum (map snd counts))).

(** The ratio as the data model words it: both operands are read off the
    joined series, where a joined year carries the cumulative in-service
    count of that same year. *)
Definition ratio_on_joined (df : frame ChargerY) (data_ev_cars : DataFrame)
  : result (list float64) :=
  m <- ev_merged df data_ev_cars ;;
  match index_of "plug_rollingSUM" (right_columns m) with
  | None => Raise (KeyError "plug_rollingSUM")
  | Some j =>
      Ok (flat_map
            (fun lr =>
               map (fun a => true_divide (cell j (snd lr)) (rollingSUM_in_service a))
                   (filter (fun a => is_yearCreated a =? yc_yearCreated (fst lr))
                           (ev_chargers_in_service df)))
            (merged_rows m))
  end.

(** ** Sample inputs *)

Definition registry_line (id : option string) (status date : string) : Charger :=
  {| chargeDeviceID := id; chargeDeviceStatus := Some status; dateCreated := Some date |}.

(** Five chargers created in 2019, 2019, 2020, 2020 and 2020. *)
Definition registry_five : list Charger :=
  [ registry_line (Some "a1") "In service" "2019-02-11 09:30:00";
    registry_line (Some "a2") "In service" "2019-07-01 00:00:00";
    registry_line (Some "b1") "In service" "2020-01-15 12:00:00";
    registry_line (Some "b2") "Out of service" "2020-03-09 08:00:00";
    registry_line (Some "b3") "In service" "2020-11-30 17:45:00" ].

(** Two chargers created in 2019, both in service, one without a device ID. *)
Definition registry_missing_id : list Charger :=
  [ registry_line (Some "a1") "In service" "2019-02-11 09:30:00";
    registry_line None "In service" "2019-07-01 00:00:00" ].

Definition cleaned_missing_id : frame ChargerY :=
  [ (0%nat, {| charger := registry_line (Some "a1") "In service" "2019-02-11 09:30:00";
               yearCreated := Some 2019 |});
    (1%nat, {| charger := registry_line None "In service" "2019-07-01 00:00:00";
               yearCreated := Some 2019 |}) ].

(** A vehicle table with cells of 2^62: in its first row under two of the
    sub-category columns, in its second row under the battery-electric and
    the plug-in-hybrid column. *)
Definition veh_large_cells : DataFrame :=
  {| columns := ["Date"; "Battery Electric"; "Plug-in Hybrid Electric 2";
                 "Unnamed: 3"; "Unnamed: 4"; "Unnamed: 5"; "Unnamed: 6"];
     rows := [ [2019; 1; 0; 4611686018427387904; 4611686018427387904; 0; 0];
               [2020; 4611686018427387904; 4611686018427387904; 0; 0; 0; 0] ] |}.

(** A vehicle table of one year whose four sub-category cells are 1, 2, 3
    and 4. *)
Definition veh_one_row : DataFrame :=
  {| columns := ["Date"; "Battery Electric"; "Plug-in Hybrid Electric 2";
                 "Unnamed: 3"; "Unnamed: 4"; "Unnamed: 5"; "Unnamed: 6"];
     rows := [ [2019; 50; 60; 1; 2; 3; 4] ] |}.

Definition veh_columns : list string :=
  ["Date"; "Battery Electric"; "Plug-in Hybrid Electric 2";
   "Unnamed: 3"; "Unnamed: 4"; "Unnamed: 5"; "Unnamed: 6"].

(** The result of a step that is known to succeed. *)
Definition get {A : Type} (default : A) (m : result A) : A :=
  match m with
  | Ok a => a
  | Raise _ => default
  end.

Definition cleaned_five : frame ChargerY := get [] (prepare iso_year registry_five).

(** Vehicle registrations of 2019, 2020 and 2021. *)
Definition veh_three : DataFrame :=
  {| columns := veh_columns;
     rows := [ [2019; 50; 60; 1; 2; 3; 4];
               [2020; 70; 80; 0; 1; 0; 2];
               [2021; 90; 10; 2; 2; 2; 2] ] |}.

Definition joined_five_three : MergedFrame :=
  get {| right_columns := []; merged_rows := [] |}
      (ev_merged cleaned_five (derive_cars veh_three)).

Definition joined_five_one : MergedFrame :=
  get {| right_columns := []; merged_rows := [] |}
      (ev_merged cleaned_five (derive_cars veh_one_row)).

(** Chargers of 2011 and 2012 in service, one of 2013 out of service. *)
Definition registry_misaligned : list Charger :=
  [ registry_line (Some "c1") "In service" "2011-05-01 10:00:00";
    registry_line (Some "c2") "In service" "2012-05-01 10:00:00";
    registry_line (Some "c3") "Out of service" "2013-05-01 10:00:00" ].

Definition cleaned_misaligned : frame ChargerY :=
  get [] (prepare iso_year registry_misaligned).

(** Vehicle registrations of 2012 and 2013. *)
Definition veh_2012_2013 : DataFrame :=
  {| columns := veh_columns;
     rows := [ [2012; 3; 1; 0; 0; 0; 0];
               [2013; 1; 1; 0; 0; 0; 0] ] |}.

(** One charger a year from 2012 to 2020, each in service. *)
Definition registry_nine (id : nat -> option string) : list Charger :=
  [ registry_line (id 0%nat) "In service" "2012-06-01 00:00:00";
    registry_line (id 1%nat) "In service" "2013-06-01 00:00:00";
    registry_line (id 2%nat) "In service" "2014-06-01 00:00:00";
    registry_line (id 3%nat) "In service" "2015-06-01 00:00:00";
    registry_line (id 4%nat) "In service" "2016-06-01 00:00:00";
    registry_line (id 5%nat) "In service" "2017-06-01 00:00:00";
    registry_line (id 6%nat) "In service" "2018-06-01 00:00:00";
    registry_line (id 7%nat) "In service" "2019-06-01 00:00:00";
    registry_line (id 8%nat) "In service" "2020-06-01 00:00:00" ].

(** The nine chargers with their device IDs. *)
Definition registry_nine_ids : list Charger :=
  registry_nine (fun n => Some (String (ascii_of_nat (97 + n)) "")).

(** The nine chargers, the device ID missing on every line. *)
Definition registry_nine_no_ids : list Charger := registry_nine (fun _ => None).

Definition cleaned_nine_ids : frame ChargerY :=
  get [] (prepare iso_year registry_nine_ids).

Definition cleaned_nine_no_ids : frame ChargerY :=
  get [] (prepare iso_year registry_nine_no_ids).

(** Vehicle registrations of 2012 to 2020. *)
Definition veh_nine : DataFrame :=
  {| columns := veh_columns;
     rows := [ [2012; 1; 1; 0; 0; 0; 0];
               [2013; 2; 1; 0; 0; 0; 0];
               [2014; 3; 2; 0; 0; 0; 0];
               [2015; 5; 3; 0; 0; 0; 0];
               [2016; 8; 5; 0; 0; 0; 0];
               [2017; 13; 8; 0; 0; 0; 0];
               [2018; 21; 13; 0; 0; 0; 0];
               [2019; 34; 21; 0; 0; 0; 0];
               [2020; 55; 34; 0; 0; 0; 0] ] |}.

(** Vehicle registrations of 2020 alone. *)
Definition veh_2020 : DataFrame :=
  {| columns := veh_columns;
     rows := [ [2020; 55; 35; 0; 0; 0; 0] ] |}.

Definition joined_nine_nine : MergedFrame :=
  get {| right_columns := []; merged_rows := [] |}
      (ev_merged cleaned_nine_ids (derive_cars veh_nine)).

Definition joined_nine_one : MergedFrame :=
  get {| right_columns := []; merged_rows := [] |}
      (ev_merged cleaned_nine_ids (derive_cars veh_2020)).

(** ** Further lines of the script *)

Fixpoint row_eqb (r r' : list Z) : bool :=
  match r, r' with
  | [], [] => true
  | c :: rest, c' :: rest' => (c =? c') && row_eqb rest rest'
  | _, _ => false
  end.

(** [df.duplicated()]: a row is marked when a row above it has the same
    cells. *)
Fixpoint duplicated_from (seen : list (list Z)) (table : list (list Z)) : list bool :=
  match table with
  | [] => []
  | r :: rest => existsb (row_eqb r) seen :: duplicated_from (r :: seen) rest
  end.

Definition duplicated (df : DataFrame) : list bool := duplicated_from [] (rows df).

(** Line 51: [data_ev_cars.duplicated().sum()], the number of marked rows. *)
Definition duplicated_sum (df : DataFrame) : Z :=
  count_where (fun b : bool => b) (duplicated df).

(** [.min()] and [.max()] of a column; an empty column has neither (pandas
    answers NaN). *)
Definition series_min (xs : list Z) : option Z :=
  match xs with
  | [] => None
  | x :: rest => Some (fold_left Z.min rest x)
  end.

Definition series_max (xs : list Z) : option Z :=
  match xs with
  | [] => None
  | x :: rest => Some (fold_left Z.max rest x)
  end.

(** Lines 96-97. *)
Definition first_year (agg : list YearCount) : option Z :=
  series_min (map yc_yearCreated agg).

Definition last_year (agg : list YearCount) : option Z :=
  series_max (map yc_yearCreated agg).

(** Lines 148-149. *)
Definition merged_first_year (m : MergedFrame) : result (option Z) :=
  dates <- merged_getitem "Date" m ;;
  Ok (series_min dates).

Definition merged_last_year (m : MergedFrame) : result (option Z) :=
  dates <- merged_getitem "Date" m ;;
  Ok (series_max dates).

(** The row has a year and the year is [y] or earlier. *)
Definition year_le (y : Z) (r : ChargerY) : bool :=
  match yearCreated r with
  | Some y' => y' <=? y
  | None => false
  end.

(** * Properties *)

(** ** Cleaning *)

Lemma read_csv_labels (registry : list Charger) :
  map fst (read_csv registry) = seq 0 (length registry).
Proof.
  unfold read_csv.
  generalize 0%nat as start.
  induction registry as [| r rest IH]; intros start; simpl.
  - reflexivity.
  - now rewrite IH.
Qed.

Lemma read_csv_rows (registry : list Charger) :
  map snd (read_csv registry) = registry.
Proof.
  unfold read_csv.
  generalize 0%nat as start.
  induction registry as [| r rest IH]; intros start; simpl.
  - reflexivity.
  - now rewrite IH.
Qed.

Lemma read_csv_NoDup (registry : list Charger) :
  NoDup (map fst (read_csv registry)).
Proof.
  rewrite read_csv_labels. apply seq_NoDup.
Qed.

Lemma label_determines_row {R : Type} (df : frame R) (a b : nat * R) :
  NoDup (map fst df) -> In a df -> In b df -> fst a = fst b -> a = b.
Proof.
  induction df as [| x df IH]; simpl; intros Hnd Ha Hb Hab.
  - contradiction.
  - inversion Hnd as [| ? ? Hx Hnd']; subst.
    destruct Ha as [-> | Ha], Hb as [-> | Hb].
    + reflexivity.
    + exfalso. apply Hx. rewrite Hab. now apply in_map.
    + exfalso. apply Hx. rewrite <- Hab. now apply in_map.
    + now apply IH.
Qed.

Lemma has_label_of_row {R : Type} (df : frame R) (lr : nat * R) :
  In lr df -> has_label df (fst lr) = true.
Proof.
  intros Hin. unfold has_label. apply existsb_exists.
  exists lr. split; [assumption | apply Nat.eqb_refl].
Qed.

Lemma index_list_present (df : frame Charger) :
  forallb (has_label df) (index_list df) = true.
Proof.
  apply forallb_forall. intros l Hl.
  unfold index_list in Hl. apply in_map_iff in Hl.
  destruct Hl as [lr [<- Hlr]]. apply filter_In in Hlr.
  apply has_label_of_row. tauto.
Qed.

Lemma listed_iff_zero_date (df : frame Charger) (lr : nat * Charger) :
  NoDup (map fst df) -> In lr df ->
  existsb (Nat.eqb (fst lr)) (index_list df) = eq_str (dateCreated (snd lr)) zero_date.
Proof.
  intros Hnd Hin.
  destruct (eq_str (dateCreated (snd lr)) zero_date) eqn:E.
  - apply existsb_exists. exists (fst lr). split; [| apply Nat.eqb_refl].
    unfold index_list. apply in_map. apply filter_In. tauto.
  - destruct (existsb (Nat.eqb (fst lr)) (index_list df)) eqn:X; [| reflexivity].
    apply existsb_exists in X. destruct X as [l [Hl Heq]].
    apply Nat.eqb_eq in Heq. subst l.
    unfold index_list in Hl. apply in_map_iff in Hl.
    destruct Hl as [lr' [Hfst Hlr']]. apply filter_In in Hlr'.
    destruct Hlr' as [Hin' Hz].
    assert (lr' = lr) by (now apply (label_determines_row df)).
    subst lr'. congruence.
Qed.

Lemma filter_agree {A : Type} (f g : A -> bool) (l : list A) :
  (forall a, In a l -> f a = g a) -> filter f l = filter g l.
Proof.
  induction l as [| a l IH]; simpl; intros H.
  - reflexivity.
  - rewrite (H a (or_introl eq_refl)), IH; [reflexivity |].
    intros b Hb. apply H. now right.
Qed.

Lemma clean_is_filter (df : frame Charger) :
  NoDup (map fst df) ->
  clean df = Ok (filter (fun lr => negb (eq_str (dateCreated (snd lr)) zero_date)) df).
Proof.
  intros Hnd. unfold clean, drop.
  rewrite index_list_present. f_equal.
  apply filter_agree. intros lr Hin.
  now rewrite listed_iff_zero_date.
Qed.

Lemma eq_str_true (o : option string) (v : string) :
  eq_str o v = true <-> o = Some v.
Proof.
  destruct o as [s |]; simpl.
  - rewrite String.eqb_eq. split; congruence.
  - split; discriminate.
Qed.

Lemma eq_str_false (o : option string) (v : string) :
  eq_str o v = false <-> o <> Some v.
Proof.
  rewrite <- eq_str_true. destruct (eq_str o v); split; congruence.
Qed.

Lemma map_snd_filter {A B : Type} (p : B -> bool) (l : list (A * B)) :
  map snd (filter (fun ab => p (snd ab)) l) = filter p (map snd l).
Proof.
  induction l as [| ab l IH]; simpl.
  - reflexivity.
  - destruct (p (snd ab)); simpl; now rewrite IH.
Qed.

(** Left in the table, the all-zero timestamp would abort the extraction of
    the year. *)
Lemma zero_date_has_no_year :
  year_of iso_year (Some zero_date) = Raise ParserError.
Proof. reflexivity. Qed.

(** C3. Cleaning the registry never raises; the rows it keeps are, in their
    order, exactly the rows whose [dateCreated] is not the all-zero
    timestamp: no kept row carries it, and a row of the registry is removed
    if and only if it carries it. *)
Theorem clean_removes_exactly_zero_dates (registry : list Charger) :
  exists cleaned,
    clean (read_csv registry) = Ok cleaned /\
    map snd cleaned
      = filter (fun r => negb (eq_str (dateCreated r) zero_date)) registry /\
    (forall lr, In lr cleaned -> dateCreated (snd lr) <> Some zero_date) /\
    (forall lr, In lr (read_csv registry) ->
       (~ In lr cleaned <-> dateCreated (snd lr) = Some zero_date)).
Proof.
  eexists. split; [apply clean_is_filter, read_csv_NoDup |].
  split; [| split].
  - rewrite (map_snd_filter (fun r => negb (eq_str (dateCreated r) zero_date))).
    now rewrite read_csv_rows.
  - intros lr Hin. apply filter_In in Hin. destruct Hin as [_ Hz].
    apply eq_str_false. now destruct (eq_str (dateCreated (snd lr)) zero_date).
  - intros lr Hin. rewrite filter_In, <- eq_str_true.
    destruct (eq_str (dateCreated (snd lr)) zero_date); simpl; split; intros H.
    + reflexivity.
    + intros [_ Hf]. discriminate.
    + exfalso. apply H. now split.
    + discriminate.
Qed.

(** ** Group keys *)

Lemma insert_key_In (k : Z) (ks : list Z) (x : Z) :
  In x (insert_key k ks) <-> x = k \/ In x ks.
Proof.
  induction ks as [| k' rest IH]; simpl.
  - intuition.
  - destruct (Z.ltb_spec k k'); [simpl; intuition |].
    destruct (Z.eqb_spec k k'); [subst; simpl; intuition |].
    simpl. rewrite IH. intuition.
Qed.

Lemma insert_key_sorted (k : Z) (ks : list Z) :
  StronglySorted Z.lt ks -> StronglySorted Z.lt (insert_key k ks).
Proof.
  induction ks as [| k' rest IH]; simpl; intros Hs.
  - constructor; [constructor | constructor].
  - inversion Hs as [| ? ? Hrest Hall]; subst.
    destruct (Z.ltb_spec k k') as [Hlt | Hge].
    + constructor; [assumption |].
      constructor; [assumption |].
      eapply Forall_impl; [| exact Hall]. intros; lia.
    + destruct (Z.eqb_spec k k') as [-> | Hne]; [assumption |].
      constructor; [now apply IH |].
      apply Forall_forall. intros x Hx. apply insert_key_In in Hx.
      destruct Hx as [-> | Hx]; [lia |].
      rewrite Forall_forall in Hall. now apply Hall.
Qed.

Lemma group_keys_In (col : list (option Z)) (k : Z) :
  In k (group_keys col) <-> In (Some k) col.
Proof.
  induction col as [| [y |] rest IH]; simpl.
  - tauto.
  - rewrite insert_key_In, IH. split; intros [H | H]; auto.
    + left. now subst.
    + left. congruence.
  - rewrite IH. split; [auto | intros [H | H]; [discriminate | assumption]].
Qed.

Lemma group_keys_sorted (col : list (option Z)) :
  StronglySorted Z.lt (group_keys col).
Proof.
  induction col as [| [y |] rest IH]; simpl.
  - constructor.
  - now apply insert_key_sorted.
  - assumption.
Qed.

Lemma sorted_NoDup (ks : list Z) : StronglySorted Z.lt ks -> NoDup ks.
Proof.
  induction 1 as [| k ks Hs IH Hall]; constructor; [| assumption].
  intros Hin. rewrite Forall_forall in Hall. specialize (Hall k Hin). lia.
Qed.

(** ** Counting *)

Lemma count_where_cons {A : Type} (f : A -> bool) (a : A) (l : list A) :
  count_where f (a :: l) = (if f a then 1 else 0) + count_where f l.
Proof.
  unfold count_where. simpl. destruct (f a); simpl length; lia.
Qed.

Lemma count_where_nonneg {A : Type} (f : A -> bool) (l : list A) :
  0 <= count_where f l.
Proof. unfold count_where. lia. Qed.

Lemma count_where_ext {A : Type} (f g : A -> bool) (l : list A) :
  (forall a, In a l -> f a = g a) -> count_where f l = count_where g l.
Proof.
  intros H. unfold count_where. now rewrite (filter_agree f g l H).
Qed.

Lemma count_where_all {A : Type} (f : A -> bool) (l : list A) :
  (forall a, In a l -> f a = true) -> count_where f l = Z.of_nat (length l).
Proof.
  intros H. unfold count_where. f_equal. f_equal.
  induction l as [| a l IH]; simpl; [reflexivity |].
  rewrite (H a (or_introl eq_refl)). f_equal. apply IH.
  intros b Hb. apply H. now right.
Qed.

Lemma year_is_in (k : Z) (ks : list Z) (r : ChargerY) :
  year_is k r = true -> year_in ks r = existsb (Z.eqb k) ks.
Proof.
  unfold year_is, year_in. destruct (yearCreated r) as [y |]; [| discriminate].
  intros H. apply Z.eqb_eq in H. now subst.
Qed.

(** Summing the group counts over distinct keys counts each row once. *)
Lemma total_group_counts (q : ChargerY -> bool) (df : frame ChargerY) (ks : list Z) :
  NoDup ks ->
  total (map (fun k => count_where (fun lr => year_is k (snd lr) && q (snd lr)) df) ks)
  = count_where (fun lr => year_in ks (snd lr) && q (snd lr)) df.
Proof.
  induction 1 as [| k ks Hk Hnd IH]; simpl.
  - unfold count_where. replace (filter _ df) with (@nil (nat * ChargerY)); [reflexivity |].
    induction df as [| lr df IHdf]; simpl; [reflexivity |].
    unfold year_in at 1. simpl. now destruct (yearCreated (snd lr)).
  - rewrite IH. clear IH.
    induction df as [| lr df IHdf]; [reflexivity |].
    rewrite !count_where_cons. rewrite <- IHdf. clear IHdf.
    assert (E : (if year_is k (snd lr) && q (snd lr) then 1 else 0)
                + (if year_in ks (snd lr) && q (snd lr) then 1 else 0)
                = (if year_in (k :: ks) (snd lr) && q (snd lr) then 1 else 0)).
    { destruct (year_is k (snd lr)) eqn:Y.
      - rewrite (year_is_in k ks _ Y), (year_is_in k (k :: ks) _ Y).
        simpl. rewrite Z.eqb_refl. simpl.
        destruct (existsb (Z.eqb k) ks) eqn:X.
        + apply existsb_exists in X. destruct X as [x [Hx Hkx]].
          apply Z.eqb_eq in Hkx. subst. contradiction.
        + simpl. destruct (q (snd lr)); reflexivity.
      - unfold year_is in Y. unfold year_in. simpl.
        destruct (yearCreated (snd lr)) as [y |]; [| reflexivity].
        simpl. rewrite Y. reflexivity. }
    lia.
Qed.

Lemma year_in_group_keys (df : frame ChargerY) (lr : nat * ChargerY) :
  In lr df ->
  year_in (group_keys (map (fun x => yearCreated (snd x)) df)) (snd lr)
  = notna (yearCreated (snd lr)).
Proof.
  intros Hin. unfold year_in.
  destruct (yearCreated (snd lr)) as [y |] eqn:Y; [| reflexivity].
  simpl. apply existsb_exists. exists y. split; [| apply Z.eqb_refl].
  apply group_keys_In. rewrite <- Y.
  now apply (in_map (fun x => yearCreated (snd x))).
Qed.

Lemma groupby_count_years (df : frame ChargerY) :
  map fst (groupby_count df) = group_keys (map (fun lr => yearCreated (snd lr)) df).
Proof.
  unfold groupby_count. rewrite map_map. simpl. apply map_id.
Qed.

Lemma groupby_count_counts (df : frame ChargerY) :
  map snd (groupby_count df)
  = map (group_count df) (group_keys (map (fun lr => yearCreated (snd lr)) df)).
Proof.
  unfold groupby_count. now rewrite map_map.
Qed.

Lemma total_groupby_count (df : frame ChargerY) :
  total (map snd (groupby_count df)) = count_where (fun lr => counted (snd lr)) df.
Proof.
  rewrite groupby_count_counts. unfold group_count.
  rewrite (total_group_counts (fun r => notna (chargeDeviceID r))).
  - apply count_where_ext. intros lr Hin. unfold counted.
    now rewrite year_in_group_keys.
  - apply sorted_NoDup, group_keys_sorted.
Qed.

(** ** Cumulative sums *)

Lemma cumsum_from_length (acc : Z) (xs : list Z) :
  length (cumsum_from acc xs) = length xs.
Proof.
  revert acc. induction xs as [| x xs IH]; intros acc; simpl; [| rewrite IH]; reflexivity.
Qed.

(** The entry at position [i] is the sum of the entries up to and including
    position [i]. *)
Lemma cumsum_from_nth (xs : list Z) : forall (acc : Z) (i : nat),
  (i < length xs)%nat ->
  nth_error (cumsum_from acc xs) i = Some (acc + total (firstn (S i) xs)).
Proof.
  induction xs as [| x xs IH]; intros acc i Hi; simpl in Hi; [lia |].
  destruct i as [| i].
  - simpl. f_equal. destruct xs; simpl; lia.
  - change (nth_error (cumsum_from (acc + x) xs) i
            = Some (acc + (x + total (firstn (S i) xs)))).
    rewrite IH by lia. f_equal. lia.
Qed.

Lemma cumsum_from_first (xs : list Z) (acc a : Z) :
  nth_error (cumsum_from acc xs) 0 = Some a ->
  exists x, nth_error xs 0 = Some x /\ a = acc + x.
Proof.
  destruct xs as [| x xs]; simpl; [discriminate |].
  intros [= <-]. now exists x.
Qed.

Lemma cumsum_from_step (xs : list Z) : forall (acc : Z) (i : nat) (a b : Z),
  nth_error (cumsum_from acc xs) i = Some a ->
  nth_error (cumsum_from acc xs) (S i) = Some b ->
  exists x, nth_error xs (S i) = Some x /\ b = a + x.
Proof.
  induction xs as [| x xs IH]; intros acc i a b Ha Hb; [discriminate |].
  destruct i as [| i].
  - simpl in Ha. injection Ha as <-.
    change (nth_error (cumsum_from (acc + x) xs) 0 = Some b) in Hb.
    apply cumsum_from_first in Hb. exact Hb.
  - apply (IH (acc + x) i a b); assumption.
Qed.

Lemma cumsum_non_decreasing (xs : list Z) :
  Forall (fun x => 0 <= x) xs -> non_decreasing (cumsum xs).
Proof.
  intros Hpos i a b Ha Hb.
  destruct (cumsum_from_step xs 0 i a b Ha Hb) as [x [Hx ->]].
  apply nth_error_In in Hx. rewrite Forall_forall in Hpos.
  specialize (Hpos x Hx). lia.
Qed.

(** ** Columns of the yearly aggregates *)

Lemma combine_fst {A B : Type} (l : list A) : forall (l' : list B),
  length l = length l' -> map fst (combine l l') = l.
Proof.
  induction l as [| a l IH]; intros [| b l'] H; simpl in *; try discriminate.
  - reflexivity.
  - f_equal. apply IH. lia.
Qed.

Lemma combine_snd {A B : Type} (l : list A) : forall (l' : list B),
  length l = length l' -> map snd (combine l l') = l'.
Proof.
  induction l as [| a l IH]; intros [| b l'] H; simpl in *; try discriminate.
  - reflexivity.
  - f_equal. apply IH. lia.
Qed.

Lemma counts_cumsum_length (counts : list (Z * Z)) :
  length counts = length (cumsum (map snd counts)).
Proof.
  unfold cumsum. now rewrite cumsum_from_length, length_map.
Qed.

Lemma aggregate_keys (counts : list (Z * Z)) :
  map (fun cs : Z * Z * Z => fst (fst cs)) (combine counts (cumsum (map snd counts)))
  = map fst counts.
Proof.
  transitivity (map fst (map fst (combine counts (cumsum (map snd counts))))).
  - now rewrite map_map.
  - now rewrite combine_fst by apply counts_cumsum_length.
Qed.

Lemma aggregate_counts (counts : list (Z * Z)) :
  map (fun cs : Z * Z * Z => snd (fst cs)) (combine counts (cumsum (map snd counts)))
  = map snd counts.
Proof.
  transitivity (map snd (map fst (combine counts (cumsum (map snd counts))))).
  - now rewrite map_map.
  - now rewrite combine_fst by apply counts_cumsum_length.
Qed.

Lemma aggregate_sums (counts : list (Z * Z)) :
  map (fun cs : Z * Z * Z => snd cs) (combine counts (cumsum (map snd counts)))
  = cumsum (map snd counts).
Proof.
  apply combine_snd, counts_cumsum_length.
Qed.

Lemma chargers_installed_years (df : frame ChargerY) :
  map yc_yearCreated (chargers_installed df)
  = group_keys (map (fun lr => yearCreated (snd lr)) df).
Proof.
  unfold chargers_installed. cbv zeta. rewrite map_map. simpl.
  rewrite aggregate_keys. apply groupby_count_years.
Qed.

Lemma chargers_installed_counts (df : frame ChargerY) :
  map num_charges (chargers_installed df) = map snd (groupby_count df).
Proof.
  unfold chargers_installed. cbv zeta. rewrite map_map. simpl.
  apply aggregate_counts.
Qed.

Lemma chargers_installed_sums (df : frame ChargerY) :
  map rollingSUM (chargers_installed df) = cumsum (map num_charges (chargers_installed df)).
Proof.
  rewrite chargers_installed_counts.
  unfold chargers_installed. cbv zeta. rewrite map_map. simpl.
  apply aggregate_sums.
Qed.

Lemma in_service_years (df : frame ChargerY) :
  map is_yearCreated (ev_chargers_in_service df)
  = group_keys (map (fun lr => yearCreated (snd lr))
                    (filter (fun lr => in_service_before_2021 (snd lr)) df)).
Proof.
  unfold ev_chargers_in_service. cbv zeta. rewrite map_map. simpl.
  rewrite aggregate_keys. apply groupby_count_years.
Qed.

Lemma in_service_counts (df : frame ChargerY) :
  map num_charges_in_service (ev_chargers_in_service df)
  = map snd (groupby_count (filter (fun lr => in_service_before_2021 (snd lr)) df)).
Proof.
  unfold ev_chargers_in_service. cbv zeta. rewrite map_map. simpl.
  apply aggregate_counts.
Qed.

Lemma in_service_sums (df : frame ChargerY) :
  map rollingSUM_in_service (ev_chargers_in_service df)
  = cumsum (map num_charges_in_service (ev_chargers_in_service df)).
Proof.
  rewrite in_service_counts.
  unfold ev_chargers_in_service. cbv zeta. rewrite map_map. simpl.
  apply aggregate_sums.
Qed.

(** ** The yearly count of chargers *)

(** The count of rows per year is not what [count()] gives when a device ID
    is missing: of two chargers created in 2019, one without an ID, the
    aggregate counts one, so the counts do not add up to the number of
    cleaned rows. *)
Lemma sum_num_charges_misses_row_without_id :
  prepare iso_year registry_missing_id = Ok cleaned_missing_id /\
  chargers_installed cleaned_missing_id
    = [ {| yc_yearCreated := 2019; num_charges := 1; rollingSUM := 1 |} ] /\
  total (map num_charges (chargers_installed cleaned_missing_id))
    <> Z.of_nat (length cleaned_missing_id).
Proof.
  repeat split; try reflexivity. vm_compute. discriminate.
Qed.

(** C4, amended. The yearly aggregate has one row per distinct year of the
    cleaned table, and its [num_charges] add up to the number of cleaned rows
    that have both a year and a device ID; when no row lacks either, that is
    the number of cleaned rows.  Chargers of the years 2019, 2019, 2020, 2020,
    2020 give exactly the rows (2019, 2, 2) and (2020, 3, 5). *)
Theorem sum_num_charges_counts_rows (df : frame ChargerY) :
  NoDup (map yc_yearCreated (chargers_installed df)) /\
  (forall y, In y (map yc_yearCreated (chargers_installed df))
             <-> exists lr, In lr df /\ yearCreated (snd lr) = Some y) /\
  total (map num_charges (chargers_installed df))
    = count_where (fun lr => counted (snd lr)) df /\
  ((forall lr, In lr df -> counted (snd lr) = true) ->
   total (map num_charges (chargers_installed df)) = Z.of_nat (length df)) /\
  (exists df5,
     prepare iso_year registry_five = Ok df5 /\
     map (fun lr => yearCreated (snd lr)) df5
       = [Some 2019; Some 2019; Some 2020; Some 2020; Some 2020] /\
     chargers_installed df5
       = [ {| yc_yearCreated := 2019; num_charges := 2; rollingSUM := 2 |};
           {| yc_yearCreated := 2020; num_charges := 3; rollingSUM := 5 |} ]).
Proof.
  assert (Hsum : total (map num_charges (chargers_installed df))
                 = count_where (fun lr => counted (snd lr)) df).
  { rewrite chargers_installed_counts. apply total_groupby_count. }
  split; [| split; [| split; [| split]]].
  - rewrite chargers_installed_years. apply sorted_NoDup, group_keys_sorted.
  - intros y. rewrite chargers_installed_years, group_keys_In, in_map_iff.
    split; intros [lr H]; exists lr; tauto.
  - exact Hsum.
  - intros Hall. rewrite Hsum. now apply count_where_all.
  - eexists. split; [vm_compute; reflexivity |]. split; reflexivity.
Qed.

(** C5. The rows of the yearly aggregate come in strictly ascending year;
    [rollingSUM] never decreases from a row to the next, and it increases at
    a row (from the previous row, or from zero at the first row) exactly when
    that row's [num_charges] is positive. *)
Theorem rollingSUM_increases_where_counted (df : frame ChargerY) :
  StronglySorted Z.lt (map yc_yearCreated (chargers_installed df)) /\
  non_decreasing (map rollingSUM (chargers_installed df)) /\
  (forall a, nth_error (chargers_installed df) 0 = Some a ->
     (0 < rollingSUM a <-> 0 < num_charges a)) /\
  (forall i a b,
     nth_error (chargers_installed df) i = Some a ->
     nth_error (chargers_installed df) (S i) = Some b ->
     (rollingSUM a < rollingSUM b <-> 0 < num_charges b)).
Proof.
  split; [| split; [| split]].
  - rewrite chargers_installed_years. apply group_keys_sorted.
  - rewrite chargers_installed_sums. apply cumsum_non_decreasing.
    rewrite chargers_installed_counts, groupby_count_counts.
    apply Forall_forall. intros x Hx. apply in_map_iff in Hx.
    destruct Hx as [k [<- _]]. apply count_where_nonneg.
  - intros a Ha.
    pose proof (map_nth_error rollingSUM _ _ Ha) as Hs.
    pose proof (map_nth_error num_charges _ _ Ha) as Hn.
    rewrite chargers_installed_sums in Hs.
    apply cumsum_from_first in Hs. destruct Hs as [x [Hx ->]].
    rewrite Hx in Hn. injection Hn as ->. lia.
  - intros i a b Ha Hb.
    pose proof (map_nth_error rollingSUM _ _ Ha) as Hsa.
    pose proof (map_nth_error rollingSUM _ _ Hb) as Hsb.
    pose proof (map_nth_error num_charges _ _ Hb) as Hn.
    rewrite chargers_installed_sums in Hsa, Hsb.
    destruct (cumsum_from_step _ _ _ _ _ Hsa Hsb) as [x [Hx ->]].
    rewrite Hx in Hn. injection Hn as ->. lia.
Qed.

(** ** The in-service aggregate *)

Lemma in_service_before_2021_spec (r : ChargerY) :
  in_service_before_2021 r = true
  <-> chargeDeviceStatus r = Some "In service" /\ yearCreated r <> Some 2021.
Proof.
  unfold in_service_before_2021. rewrite andb_true_iff, eq_str_true.
  destruct (yearCreated r) as [y |].
  - rewrite negb_true_iff, Z.eqb_neq. split; intros [H1 H2]; split; congruence.
  - split; intros [H1 H2]; split; congruence.
Qed.

(** A per-year count of rows is not what the code computes when a device ID
    is missing: of two in-service chargers of 2019, one without an ID, the
    code counts one where the rows number two. *)
Lemma in_service_count_misses_row_without_id :
  prepare iso_year registry_missing_id = Ok cleaned_missing_id /\
  ev_chargers_in_service cleaned_missing_id
    = [ {| is_yearCreated := 2019; num_charges_in_service := 1;
           rollingSUM_in_service := 1 |} ] /\
  in_service_row_counts cleaned_missing_id
    = [ {| is_yearCreated := 2019; num_charges_in_service := 2;
           rollingSUM_in_service := 2 |} ] /\
  ev_chargers_in_service cleaned_missing_id <> in_service_row_counts cleaned_missing_id.
Proof.
  repeat split; try reflexivity. vm_compute. discriminate.
Qed.

(** C6, amended. The in-service aggregate is built from exactly the cleaned
    rows whose status is "In service" and whose year is not 2021: it has one
    row per year of those rows, in ascending order; [num_charges_in_service]
    is the number of those rows of that year that have a device ID, and
    [rollingSUM_in_service] is the sum of the counts up to and including the
    row. *)
Theorem in_service_aggregate (df : frame ChargerY) :
  let selected := filter (fun lr => in_service_before_2021 (snd lr)) df in
  let agg := ev_chargers_in_service df in
  (forall lr, In lr selected
     <-> In lr df /\ chargeDeviceStatus (snd lr) = Some "In service"
         /\ yearCreated (snd lr) <> Some 2021) /\
  StronglySorted Z.lt (map is_yearCreated agg) /\
  (forall y, In y (map is_yearCreated agg)
     <-> exists lr, In lr selected /\ yearCreated (snd lr) = Some y) /\
  (forall a, In a agg ->
     num_charges_in_service a
     = count_where (fun lr => year_is (is_yearCreated a) (snd lr)
                              && notna (chargeDeviceID (snd lr))) selected) /\
  (forall i a, nth_error agg i = Some a ->
     rollingSUM_in_service a
     = total (firstn (S i) (map num_charges_in_service agg))).
Proof.
  intros selected agg. split; [| split; [| split; [| split]]].
  - intros lr. unfold selected. rewrite filter_In, in_service_before_2021_spec. tauto.
  - unfold agg. rewrite in_service_years. apply group_keys_sorted.
  - intros y. unfold agg. rewrite in_service_years, group_keys_In, in_map_iff.
    fold selected. split; intros [lr H]; exists lr; tauto.
  - intros a Ha. unfold agg, ev_chargers_in_service in Ha. cbv zeta in Ha.
    apply in_map_iff in Ha. destruct Ha as [[[k n] s] [<- Hin]]. simpl.
    apply in_combine_l in Hin. unfold groupby_count in Hin.
    apply in_map_iff in Hin. destruct Hin as [k' [Heq _]].
    injection Heq as -> <-. reflexivity.
  - intros i a Ha.
    pose proof (map_nth_error rollingSUM_in_service _ _ Ha) as Hs.
    subst agg. rewrite in_service_sums in Hs.
    unfold cumsum in Hs. rewrite cumsum_from_nth in Hs.
    + injection Hs as Hs. rewrite <- Hs. apply Z.add_0_l.
    + rewrite length_map. apply nth_error_Some. congruence.
Qed.

(** ** Columns of a frame *)

Lemma index_of_Some (name : string) (cols : list string) : forall j,
  index_of name cols = Some j -> nth_error cols j = Some name.
Proof.
  induction cols as [| c cols IH]; simpl; intros j H; [discriminate |].
  destruct (String.eqb_spec c name) as [-> | Hne].
  - injection H as <-. reflexivity.
  - destruct (index_of name cols) as [j' |]; [| discriminate].
    injection H as <-. simpl. now apply IH.
Qed.

Lemma index_of_bound (name : string) (cols : list string) (j : nat) :
  index_of name cols = Some j -> (j < length cols)%nat.
Proof.
  intros H. apply index_of_Some in H. apply nth_error_Some. congruence.
Qed.

Lemma index_of_app_old (name : string) (cols extra : list string) (j : nat) :
  index_of name cols = Some j -> index_of name (cols ++ extra) = Some j.
Proof.
  revert j. induction cols as [| c cols IH]; simpl; intros j H; [discriminate |].
  destruct (String.eqb c name); [assumption |].
  destruct (index_of name cols) as [j' |]; [| discriminate].
  now rewrite (IH j' eq_refl).
Qed.

Lemma index_of_app_new (name : string) (cols : list string) :
  index_of name cols = None -> index_of name (cols ++ [name]) = Some (length cols).
Proof.
  induction cols as [| c cols IH]; simpl; intros H.
  - now rewrite String.eqb_refl.
  - destruct (String.eqb c name); [discriminate |].
    destruct (index_of name cols); [discriminate |].
    now rewrite IH.
Qed.

Lemma index_of_app_other (name other : string) (cols : list string) :
  other <> name -> index_of name cols = None -> index_of name (cols ++ [other]) = None.
Proof.
  intros Hne. induction cols as [| c cols IH]; simpl; intros H.
  - destruct (String.eqb_spec other name); [contradiction | reflexivity].
  - destruct (String.eqb c name); [discriminate |].
    destruct (index_of name cols); [discriminate |].
    now rewrite IH.
Qed.

Lemma set_cell_same (row : list Z) : forall (j : nat) (v : Z),
  (j < length row)%nat -> cell j (set_cell j v row) = v.
Proof.
  unfold cell. induction row as [| c row IH]; intros j v Hj; simpl in Hj; [lia |].
  destruct j as [| j]; simpl; [reflexivity |]. apply IH. lia.
Qed.

Lemma set_cell_other (row : list Z) : forall (j j' : nat) (v : Z),
  j <> j' -> cell j' (set_cell j v row) = cell j' row.
Proof.
  unfold cell. induction row as [| c row IH]; intros j j' v Hne.
  - now destruct j.
  - destruct j as [| j], j' as [| j']; simpl; try reflexivity; try lia.
    apply IH. lia.
Qed.

Lemma set_cell_length (row : list Z) : forall (j : nat) (v : Z),
  length (set_cell j v row) = length row.
Proof.
  induction row as [| c row IH]; intros j v.
  - now destruct j.
  - destruct j; simpl; [reflexivity | now rewrite IH].
Qed.

Lemma cell_app_last (row : list Z) (v : Z) : cell (length row) (row ++ [v]) = v.
Proof.
  unfold cell. rewrite app_nth2 by lia. now rewrite Nat.sub_diag.
Qed.

Lemma cell_app_old (row : list Z) (v : Z) (j : nat) :
  (j < length row)%nat -> cell j (row ++ [v]) = cell j row.
Proof.
  intros Hj. unfold cell. now apply app_nth1.
Qed.

(** What a row-wise update leaves in a column, given what it does to one
    row. *)
Lemma column_after_update (P : list Z -> Prop) (h : list Z -> Z -> list Z)
  (k : list Z -> Z) (table : list (list Z)) : forall (col : list Z),
  (forall r v, P r -> k (h r v) = k r) ->
  Forall P table -> length col = length table ->
  map k (map (fun rv => h (fst rv) (snd rv)) (combine table col)) = map k table.
Proof.
  induction table as [| r table IH]; intros [| v col] Hk HP Hlen;
    simpl in *; try discriminate; [reflexivity |].
  inversion HP; subst. f_equal; [now apply Hk | apply IH; auto].
Qed.

Lemma column_of_update (P : list Z -> Prop) (h : list Z -> Z -> list Z)
  (k : list Z -> Z) (table : list (list Z)) : forall (col : list Z),
  (forall r v, P r -> k (h r v) = v) ->
  Forall P table -> length col = length table ->
  map k (map (fun rv => h (fst rv) (snd rv)) (combine table col)) = col.
Proof.
  induction table as [| r table IH]; intros [| v col] Hk HP Hlen;
    simpl in *; try discriminate; [reflexivity |].
  inversion HP; subst. f_equal; [now apply Hk | apply IH; auto].
Qed.

Lemma getitem_setitem_same (name : string) (col : list Z) (df : DataFrame) :
  rectangular df -> length col = length (rows df) ->
  getitem name (setitem name col df) = Ok col.
Proof.
  intros Hrect Hlen. unfold getitem, setitem.
  destruct (index_of name (columns df)) as [j |] eqn:E; simpl.
  - rewrite E. f_equal.
    apply (column_of_update (fun r => length r = length (columns df))
             (fun r v => set_cell j v r)); auto.
    intros r v Hr. apply set_cell_same. rewrite Hr. now apply (index_of_bound name).
  - rewrite (index_of_app_new _ _ E). f_equal.
    apply (column_of_update (fun r => length r = length (columns df))
             (fun r v => (r ++ [v])%list)); auto.
    intros r v Hr. rewrite <- Hr. apply cell_app_last.
Qed.

(** Assigning a column leaves alone every cell that lies under another
    column. *)
Lemma setitem_keeps_cell (name : string) (col : list Z) (df : DataFrame) (j' : nat) :
  rectangular df -> length col = length (rows df) ->
  (j' < length (columns df))%nat -> index_of name (columns df) <> Some j' ->
  map (cell j') (rows (setitem name col df)) = map (cell j') (rows df).
Proof.
  intros Hrect Hlen Hj' Hne. unfold setitem.
  destruct (index_of name (columns df)) as [j |] eqn:E; simpl.
  - apply (column_after_update (fun r => length r = length (columns df))
             (fun r v => set_cell j v r)); auto.
    intros r v _. apply set_cell_other. congruence.
  - apply (column_after_update (fun r => length r = length (columns df))
             (fun r v => (r ++ [v])%list)); auto.
    intros r v Hr. apply cell_app_old. now rewrite Hr.
Qed.

Lemma getitem_setitem_other (name other : string) (col : list Z) (df : DataFrame) :
  other <> name -> rectangular df -> length col = length (rows df) ->
  getitem other (setitem name col df) = getitem other df.
Proof.
  intros Hne Hrect Hlen. unfold getitem.
  assert (Hcols : index_of other (columns (setitem name col df))
                  = index_of other (columns df)).
  { unfold setitem. destruct (index_of name (columns df)) eqn:E; simpl; [reflexivity |].
    destruct (index_of other (columns df)) as [j' |] eqn:E'.
    - now apply index_of_app_old.
    - apply index_of_app_other; [congruence | assumption]. }
  rewrite Hcols.
  destruct (index_of other (columns df)) as [j' |] eqn:E'; [| reflexivity].
  f_equal. apply setitem_keeps_cell; auto.
  - now apply (index_of_bound other).
  - intros E. apply index_of_Some in E, E'. congruence.
Qed.

Lemma setitem_rectangular (name : string) (col : list Z) (df : DataFrame) :
  rectangular df -> rectangular (setitem name col df).
Proof.
  unfold rectangular, setitem. intros Hrect.
  destruct (index_of name (columns df)) as [j |]; simpl;
    apply Forall_forall; intros r Hin; apply in_map_iff in Hin;
    destruct Hin as [[r0 v] [<- Hin]]; apply in_combine_l in Hin;
    rewrite Forall_forall in Hrect; specialize (Hrect r0 Hin); simpl.
  - now rewrite set_cell_length.
  - rewrite !length_app. simpl. lia.
Qed.

Lemma setitem_length (name : string) (col : list Z) (df : DataFrame) :
  length col = length (rows df) -> length (rows (setitem name col df)) = length (rows df).
Proof.
  intros Hlen. unfold setitem.
  destruct (index_of name (columns df)); simpl;
    rewrite length_map, length_combine; lia.
Qed.

(** ** Derived columns of the vehicle table *)

(** *** int64 arithmetic *)

Lemma wrap64_small (z : Z) : in_int64 z -> wrap64 z = z.
Proof.
  unfold in_int64, wrap64. intros H. rewrite Z.mod_small; lia.
Qed.

Lemma wrap64_range (z : Z) : in_int64 (wrap64 z).
Proof.
  unfold in_int64, wrap64.
  pose proof (Z.mod_pos_bound (z + 2 ^ 63) (2 ^ 64) ltac:(lia)). lia.
Qed.

Lemma wrap64_add_l (a b : Z) : wrap64 (wrap64 a + b) = wrap64 (a + b).
Proof.
  unfold wrap64. f_equal.
  replace ((a + 2 ^ 63) mod 2 ^ 64 - 2 ^ 63 + b + 2 ^ 63)
    with ((a + 2 ^ 63) mod 2 ^ 64 + b) by lia.
  rewrite Zplus_mod_idemp_l. f_equal. lia.
Qed.

Lemma wrap64_add_r (a b : Z) : wrap64 (a + wrap64 b) = wrap64 (a + b).
Proof.
  rewrite (Z.add_comm a (wrap64 b)), wrap64_add_l. f_equal. lia.
Qed.

Lemma fold_add64 (xs : list Z) : forall a,
  fold_left add64 xs (wrap64 a) = wrap64 (a + total xs).
Proof.
  induction xs as [| x xs IH]; intros a; simpl.
  - f_equal. lia.
  - unfold add64 at 2. rewrite wrap64_add_l, IH. f_equal. lia.
Qed.

(** The int64 sum of a row is its exact sum, wrapped around once. *)
Lemma total64_wraps (xs : list Z) : total64 xs = wrap64 (total xs).
Proof.
  unfold total64. change 0 with (wrap64 0) at 1. now rewrite fold_add64.
Qed.

Lemma cumsum64_from_length (acc : Z) (xs : list Z) :
  length (cumsum64_from acc xs) = length xs.
Proof.
  revert acc. induction xs as [| x xs IH]; intros acc; simpl; [| rewrite IH]; reflexivity.
Qed.

Lemma cumsum64_from_wraps (xs : list Z) : forall a,
  cumsum64_from (wrap64 a) xs = map wrap64 (cumsum_from a xs).
Proof.
  induction xs as [| x xs IH]; intros a; simpl; [reflexivity |].
  unfold add64. rewrite wrap64_add_l. f_equal. apply IH.
Qed.

Lemma cumsum64_from_absorbs (xs : list Z) : forall acc,
  cumsum64_from acc (map wrap64 xs) = cumsum64_from acc xs.
Proof.
  induction xs as [| x xs IH]; intros acc; simpl; [reflexivity |].
  unfold add64. rewrite wrap64_add_r. f_equal. apply IH.
Qed.

(** The int64 cumulative sum is the exact cumulative sum, each entry wrapped
    around. *)
Lemma cumsum64_wraps (xs : list Z) : cumsum64 xs = map wrap64 (cumsum xs).
Proof.
  unfold cumsum64, cumsum. change 0 with (wrap64 0) at 1. apply cumsum64_from_wraps.
Qed.

Lemma total_nonneg (xs : list Z) : Forall (fun x => 0 <= x) xs -> 0 <= total xs.
Proof.
  induction 1 as [| x xs Hx _ IH]; simpl; lia.
Qed.

Lemma cumsum_from_bounds (xs : list Z) : forall acc,
  Forall (fun x => 0 <= x) xs ->
  Forall (fun s => acc <= s <= acc + total xs) (cumsum_from acc xs).
Proof.
  induction xs as [| x xs IH]; intros acc Hpos; simpl; constructor.
  - inversion Hpos; subst. pose proof (total_nonneg xs ltac:(assumption)). lia.
  - inversion Hpos as [| ? ? Hx Hxs]; subst.
    eapply Forall_impl; [| apply (IH (acc + x) Hxs)]. intros s Hs. simpl in Hs. lia.
Qed.

Lemma wrap64_leaves (xs : list Z) : Forall in_int64 xs -> map wrap64 xs = xs.
Proof.
  induction 1 as [| x xs Hx _ IH]; simpl; [reflexivity |].
  now rewrite wrap64_small, IH.
Qed.

(** *** The two columns *)

Lemma total_iloc_3_7 (row : list Z) :
  total (firstn (7 - 3) (skipn 3 row)) = cell 3 row + cell 4 row + cell 5 row + cell 6 row.
Proof.
  unfold cell.
  destruct row as [| c0 [| c1 [| c2 [| c3 [| c4 [| c5 [| c6 rest]]]]]]]; simpl; lia.
Qed.

Lemma total_iloc_1_3 (row : list Z) :
  total (firstn (3 - 1) (skipn 1 row)) = cell 1 row + cell 2 row.
Proof.
  unfold cell. destruct row as [| c0 [| c1 [| c2 rest]]]; simpl; lia.
Qed.

Lemma otherULEVs_values (df : DataFrame) :
  sum_axis1 (iloc_cols 3 7 df)
  = map (fun row => wrap64 (cell 3 row + cell 4 row + cell 5 row + cell 6 row)) (rows df).
Proof.
  unfold sum_axis1, iloc_cols. rewrite map_map.
  apply map_ext. intros row. now rewrite total64_wraps, total_iloc_3_7.
Qed.

Lemma sum_axis1_iloc_length (a b : nat) (df : DataFrame) :
  length (sum_axis1 (iloc_cols a b df)) = length (rows df).
Proof.
  unfold sum_axis1, iloc_cols. now rewrite !length_map.
Qed.

Lemma plug_values_length (df : DataFrame) :
  length (cumsum64 (sum_axis1 (iloc_cols 1 3 df))) = length (rows df).
Proof.
  unfold cumsum64. now rewrite cumsum64_from_length, sum_axis1_iloc_length.
Qed.

Lemma add_otherULEVs_rectangular (df : DataFrame) :
  rectangular df -> rectangular (add_otherULEVs df).
Proof. apply setitem_rectangular. Qed.

(** The sum of four cells is not always what the column holds: two cells of
    2^62 add up to 2^63, which no int64 holds, and the column holds -2^63. *)
Lemma otherULEVs_wraps_around :
  rectangular veh_large_cells /\
  nth_error (rows veh_large_cells) 0
    = Some [2019; 1; 0; 4611686018427387904; 4611686018427387904; 0; 0] /\
  4611686018427387904 + 4611686018427387904 + 0 + 0 = 9223372036854775808 /\
  getitem "otherULEVs" (derive_cars veh_large_cells) = Ok [-9223372036854775808; 0] /\
  getitem "otherULEVs" (derive_cars veh_large_cells)
    <> Ok (map (fun row => cell 3 row + cell 4 row + cell 5 row + cell 6 row)
               (rows veh_large_cells)).
Proof.
  split; [repeat constructor |]. repeat split; try reflexivity.
  vm_compute. discriminate.
Qed.

(** C7, amended. In a vehicle table with one cell per column in every row,
    the [otherULEVs] column, right after its assignment and at the end of the
    derivation alike, holds for every row the int64 sum of the cells of that
    row at the column positions 3, 4, 5 and 6: their sum wrapped around at 64
    bits, which is their sum whenever that lies in the int64 range.  A row
    whose cells there are 1, 2, 3 and 4 gets 10. *)
Theorem otherULEVs_is_int64_sum_of_four (df : DataFrame) :
  rectangular df ->
  getitem "otherULEVs" (add_otherULEVs df)
    = Ok (map (fun row => wrap64 (cell 3 row + cell 4 row + cell 5 row + cell 6 row))
              (rows df)) /\
  getitem "otherULEVs" (derive_cars df)
    = Ok (map (fun row => wrap64 (cell 3 row + cell 4 row + cell 5 row + cell 6 row))
              (rows df)) /\
  (forall i row, nth_error (rows df) i = Some row ->
     in_int64 (cell 3 row + cell 4 row + cell 5 row + cell 6 row) ->
     exists col, getitem "otherULEVs" (derive_cars df) = Ok col /\
                 nth_error col i = Some (cell 3 row + cell 4 row + cell 5 row + cell 6 row)) /\
  getitem "otherULEVs" (derive_cars veh_one_row) = Ok [10].
Proof.
  intros Hrect.
  assert (H1 : getitem "otherULEVs" (add_otherULEVs df)
               = Ok (map (fun row => wrap64 (cell 3 row + cell 4 row + cell 5 row
                                             + cell 6 row)) (rows df))).
  { unfold add_otherULEVs. rewrite getitem_setitem_same; auto.
    - now rewrite otherULEVs_values.
    - apply sum_axis1_iloc_length. }
  assert (H2 : getitem "otherULEVs" (derive_cars df)
               = Ok (map (fun row => wrap64 (cell 3 row + cell 4 row + cell 5 row
                                             + cell 6 row)) (rows df))).
  { unfold derive_cars, add_plug_rollingSUM.
    rewrite getitem_setitem_other; auto.
    - discriminate.
    - now apply add_otherULEVs_rectangular.
    - apply plug_values_length. }
  split; [exact H1 |]. split; [exact H2 |]. split; [| reflexivity].
  intros i row Hrow Hrange. eexists. split; [exact H2 |].
  rewrite <- (wrap64_small _ Hrange) at 1.
  now apply (map_nth_error
               (fun row => wrap64 (cell 3 row + cell 4 row + cell 5 row + cell 6 row))).
Qed.

(** Three years of vehicles: the sums of the four cells are 10, 3 and 8. *)
Lemma otherULEVs_is_int64_sum_of_four_witness :
  rectangular veh_three /\
  getitem "otherULEVs" (derive_cars veh_three) = Ok [10; 3; 8].
Proof.
  assert (H : rectangular veh_three) by (repeat constructor).
  split; [exact H |].
  rewrite (proj1 (proj2 (otherULEVs_is_int64_sum_of_four veh_three H))).
  reflexivity.
Defined.

Lemma index_of_position (name : string) (cols : list string) : forall j,
  NoDup cols -> nth_error cols j = Some name -> index_of name cols = Some j.
Proof.
  induction cols as [| c cols IH]; intros j Hnd Hj; [now destruct j |].
  inversion Hnd as [| ? ? Hc Hnd']; subst. simpl.
  destruct j as [| j]; simpl in Hj.
  - injection Hj as ->. now rewrite String.eqb_refl.
  - destruct (String.eqb_spec c name) as [-> | Hne].
    + exfalso. apply Hc. eapply nth_error_In; eauto.
    + now rewrite (IH j Hnd' Hj).
Qed.

Lemma zip_with_maps {A B C D : Type} (f : B -> C -> D) (g : A -> B) (h : A -> C)
  (l : list A) :
  map (fun a => f (g a) (h a)) l = zip_with f (map g l) (map h l).
Proof.
  induction l as [| a l IH]; simpl; [reflexivity | now rewrite IH].
Qed.

Lemma zip_add_nonneg (xs : list Z) : forall ys,
  Forall (fun x => 0 <= x) xs -> Forall (fun y => 0 <= y) ys ->
  Forall (fun z => 0 <= z) (zip_with Z.add xs ys).
Proof.
  induction xs as [| x xs IH]; intros [| y ys] Hx Hy; simpl; try constructor.
  - inversion Hx; inversion Hy; subst. lia.
  - inversion Hx; inversion Hy; subst. now apply IH.
Qed.

Lemma plug_values (df : DataFrame) :
  cumsum64 (sum_axis1 (iloc_cols 1 3 df))
  = map wrap64 (cumsum (zip_with Z.add (map (cell 1) (rows df)) (map (cell 2) (rows df)))).
Proof.
  rewrite <- cumsum64_wraps, <- zip_with_maps.
  unfold sum_axis1, iloc_cols. rewrite map_map.
  replace (map (fun row => total64 (firstn (3 - 1) (skipn 1 row))) (rows df))
    with (map wrap64 (map (fun row => cell 1 row + cell 2 row) (rows df))).
  - unfold cumsum64. apply cumsum64_from_absorbs.
  - rewrite map_map. apply map_ext. intros row.
    now rewrite total64_wraps, total_iloc_1_3.
Qed.

(** The cumulative sum can decrease over non-negative columns: a first row
    with 1 and 0 and a second row with 2^62 and 2^62 give the exact running
    totals 1 and 2^63 + 1, but the column holds 1 and 1 - 2^63. *)
Lemma plug_rollingSUM_wraps_around :
  getitem "Battery Electric" veh_large_cells = Ok [1; 4611686018427387904] /\
  getitem "Plug-in Hybrid Electric 2" veh_large_cells = Ok [0; 4611686018427387904] /\
  cumsum (zip_with Z.add [1; 4611686018427387904] [0; 4611686018427387904])
    = [1; 9223372036854775809] /\
  getitem "plug_rollingSUM" (derive_cars veh_large_cells)
    = Ok [1; -9223372036854775807] /\
  ~ non_decreasing [1; -9223372036854775807].
Proof.
  repeat split; try reflexivity.
  intros H. specialize (H 0%nat 1 (-9223372036854775807) eq_refl eq_refl). lia.
Qed.

(** C8, amended. In a vehicle table with one cell per column in every row,
    distinct column names and the columns 'Battery Electric' and 'Plug-in
    Hybrid Electric 2' at the positions 1 and 2, [plug_rollingSUM] is the
    int64 cumulative sum, in row order, of the row-wise sum of those two
    columns: each exact running total wrapped around at 64 bits.  When
    neither column has a negative entry and the two columns together add up
    to less than 2^63, nothing wraps: [plug_rollingSUM] holds the exact
    running totals and never decreases from a row to the next. *)
Theorem plug_rollingSUM_is_int64_cumulative (df : DataFrame) :
  rectangular df ->
  NoDup (columns df) ->
  nth_error (columns df) 1 = Some "Battery Electric" ->
  nth_error (columns df) 2 = Some "Plug-in Hybrid Electric 2" ->
  exists bev phev plug,
    getitem "Battery Electric" df = Ok bev /\
    getitem "Plug-in Hybrid Electric 2" df = Ok phev /\
    getitem "plug_rollingSUM" (derive_cars df) = Ok plug /\
    plug = map wrap64 (cumsum (zip_with Z.add bev phev)) /\
    (Forall (fun x => 0 <= x) bev -> Forall (fun x => 0 <= x) phev ->
     total (zip_with Z.add bev phev) < 2 ^ 63 ->
     plug = cumsum (zip_with Z.add bev phev) /\
     (forall i, (i < length (rows df))%nat ->
        nth_error plug i = Some (total (firstn (S i) (zip_with Z.add bev phev)))) /\
     non_decreasing plug).
Proof.
  intros Hrect Hnd H1 H2.
  exists (map (cell 1) (rows df)), (map (cell 2) (rows df)).
  eexists. split; [| split; [| split; [| split; [reflexivity |]]]].
  - unfold getitem. now rewrite (index_of_position _ _ 1%nat Hnd H1).
  - unfold getitem. now rewrite (index_of_position _ _ 2%nat Hnd H2).
  - unfold derive_cars, add_plug_rollingSUM.
    rewrite getitem_setitem_same.
    + rewrite plug_values.
      assert (K : forall j other,
                 nth_error (columns df) j = Some other -> other <> "otherULEVs" ->
                 map (cell j) (rows (add_otherULEVs df)) = map (cell j) (rows df)).
      { intros j other Hj Hother. unfold add_otherULEVs.
        apply setitem_keeps_cell.
        - exact Hrect.
        - apply sum_axis1_iloc_length.
        - apply nth_error_Some. congruence.
        - intros E. apply index_of_Some in E. congruence. }
      rewrite (K 1%nat _ H1), (K 2%nat _ H2) by discriminate. reflexivity.
    + now apply add_otherULEVs_rectangular.
    + apply plug_values_length.
  - intros Hb Hp Htotal.
    set (sums := zip_with Z.add (map (cell 1) (rows df)) (map (cell 2) (rows df))) in *.
    assert (Hpos : Forall (fun z => 0 <= z) sums) by (now apply zip_add_nonneg).
    assert (Hexact : map wrap64 (cumsum sums) = cumsum sums).
    { apply wrap64_leaves. unfold cumsum.
      eapply Forall_impl; [| apply (cumsum_from_bounds sums 0 Hpos)].
      intros s Hs. simpl in Hs. unfold in_int64. lia. }
    rewrite Hexact. split; [reflexivity |]. split.
    + intros i Hi. unfold cumsum. rewrite cumsum_from_nth; [reflexivity |].
      unfold sums. rewrite <- zip_with_maps, length_map. exact Hi.
    + now apply cumsum_non_decreasing.
Qed.

(** Nine years of vehicles: the running totals grow from 2 to 230. *)
Lemma plug_rollingSUM_is_int64_cumulative_witness :
  getitem "plug_rollingSUM" (derive_cars veh_nine)
    = Ok [2; 5; 10; 18; 31; 52; 86; 141; 230] /\
  non_decreasing [2; 5; 10; 18; 31; 52; 86; 141; 230].
Proof.
  assert (Hrect : rectangular veh_nine) by (repeat constructor).
  assert (Hnd : NoDup (columns veh_nine))
    by (repeat constructor; simpl; intuition discriminate).
  destruct (plug_rollingSUM_is_int64_cumulative veh_nine Hrect Hnd eq_refl eq_refl)
    as [bev [phev [plug [Hb [Hp [Hplug [_ Hexact]]]]]]].
  vm_compute in Hb. injection Hb as <-.
  vm_compute in Hp. injection Hp as <-.
  vm_compute in Hplug. injection Hplug as <-.
  split; [reflexivity |].
  apply Hexact.
  - repeat constructor; lia.
  - repeat constructor; lia.
  - reflexivity.
Defined.

(** ** The join on the year *)

Lemma merge_rows (left : list YearCount) (right : DataFrame) (m : MergedFrame) :
  merge left right = Ok m ->
  exists j,
    index_of "Date" (columns right) = Some j /\
    right_columns m = columns right /\
    forall l r, In (l, r) (merged_rows m)
                <-> In l left /\ In r (rows right) /\ cell j r = yc_yearCreated l.
Proof.
  unfold merge. destruct (index_of "Date" (columns right)) as [j |]; [| discriminate].
  intros [= <-]. exists j. simpl. split; [reflexivity | split; [reflexivity |]].
  intros l r. rewrite in_flat_map. split.
  - intros [l' [Hl' Hin]]. apply in_map_iff in Hin.
    destruct Hin as [r' [[= -> ->] Hr']]. apply filter_In in Hr'.
    destruct Hr' as [Hr' Heq]. apply Z.eqb_eq in Heq. auto.
  - intros [Hl [Hr Heq]]. exists l. split; [assumption |].
    apply in_map. apply filter_In. split; [assumption | now apply Z.eqb_eq].
Qed.

(** C2. When the join succeeds, its rows are exactly the pairs of a row of
    the yearly charger aggregate and a row of the vehicle table with
    [yearCreated] equal to [Date]: the [Date] column of the joined table
    repeats, row by row, its [yearCreated] column, and the year of every
    joined row occurs in the aggregate and in the [Date] column of the
    vehicle table. *)
Theorem joined_rows_agree_on_year
  (df : frame ChargerY) (data_ev_cars : DataFrame) (m : MergedFrame) :
  ev_merged df data_ev_cars = Ok m ->
  exists dates,
    getitem "Date" data_ev_cars = Ok dates /\
    merged_getitem "Date" m
      = Ok (map (fun lr => yc_yearCreated (fst lr)) (merged_rows m)) /\
    (forall lr, In lr (merged_rows m) ->
       In (fst lr) (chargers_installed df) /\
       In (snd lr) (rows data_ev_cars) /\
       In (yc_yearCreated (fst lr)) (map yc_yearCreated (chargers_installed df)) /\
       In (yc_yearCreated (fst lr)) dates) /\
    (forall l r j, In l (chargers_installed df) -> In r (rows data_ev_cars) ->
       index_of "Date" (columns data_ev_cars) = Some j ->
       cell j r = yc_yearCreated l -> In (l, r) (merged_rows m)).
Proof.
  intros Hm. unfold ev_merged in Hm.
  destruct (merge_rows _ _ _ Hm) as [j [Hj [Hcols Hrows]]].
  exists (map (cell j) (rows data_ev_cars)).
  split; [| split; [| split]].
  - unfold getitem. now rewrite Hj.
  - unfold merged_getitem. rewrite Hcols, Hj. f_equal.
    apply map_ext_in. intros [l r] Hin. apply Hrows in Hin. simpl. tauto.
  - intros [l r] Hin. apply Hrows in Hin. destruct Hin as [Hl [Hr Heq]]. simpl.
    repeat split; auto.
    + now apply in_map.
    + rewrite <- Heq. now apply in_map.
  - intros l r j' Hl Hr Hj' Heq. apply Hrows.
    rewrite Hj in Hj'. injection Hj' as <-. auto.
Qed.

(** Chargers of 2019 and 2020 joined with vehicles of 2019, 2020 and 2021:
    the years 2019 and 2020 survive. *)
Lemma joined_rows_agree_on_year_witness :
  ev_merged cleaned_five (derive_cars veh_three) = Ok joined_five_three /\
  map (fun lr => yc_yearCreated (fst lr)) (merged_rows joined_five_three) = [2019; 2020] /\
  exists dates,
    getitem "Date" (derive_cars veh_three) = Ok dates /\
    merged_getitem "Date" joined_five_three
      = Ok (map (fun lr => yc_yearCreated (fst lr)) (merged_rows joined_five_three)) /\
    (forall lr, In lr (merged_rows joined_five_three) ->
       In (fst lr) (chargers_installed cleaned_five) /\
       In (snd lr) (rows (derive_cars veh_three)) /\
       In (yc_yearCreated (fst lr)) (map yc_yearCreated (chargers_installed cleaned_five)) /\
       In (yc_yearCreated (fst lr)) dates) /\
    (forall l r j, In l (chargers_installed cleaned_five) ->
       In r (rows (derive_cars veh_three)) ->
       index_of "Date" (columns (derive_cars veh_three)) = Some j ->
       cell j r = yc_yearCreated l -> In (l, r) (merged_rows joined_five_three)).
Proof.
  split; [reflexivity |]. split; [reflexivity |].
  apply (joined_rows_agree_on_year cleaned_five (derive_cars veh_three)).
  reflexivity.
Defined.

(** ** The ratio *)

Lemma zip_with_nth_error {A B C : Type} (f : A -> B -> C) (xs : list A) :
  forall (ys : list B) (i : nat) (x : A) (y : B),
  nth_error xs i = Some x -> nth_error ys i = Some y ->
  nth_error (zip_with f xs ys) i = Some (f x y).
Proof.
  induction xs as [| x0 xs IH]; intros ys i x y Hx Hy; [now destruct i |].
  destruct ys as [| y0 ys]; [now destruct i |].
  destruct i as [| i]; simpl in *.
  - congruence.
  - now apply IH.
Qed.

Lemma zip_with_length {A B C : Type} (f : A -> B -> C) (xs : list A) :
  forall (ys : list B), length xs = length ys -> length (zip_with f xs ys) = length xs.
Proof.
  induction xs as [| x xs IH]; intros [| y ys] H; simpl in *; try discriminate.
  - reflexivity.
  - f_equal. apply IH. lia.
Qed.

Lemma np_divide_same_length (xs ys : list Z) :
  length xs = length ys -> np_divide xs ys = Ok (zip_with true_divide xs ys).
Proof.
  intros H. unfold np_divide. now rewrite (proj2 (Nat.eqb_eq _ _) H).
Qed.

Lemma np_divide_mismatch (xs ys : list Z) :
  length xs <> length ys -> length xs <> 1%nat -> length ys <> 1%nat ->
  np_divide xs ys = Raise ValueError.
Proof.
  intros Hne Hx Hy. unfold np_divide.
  rewrite (proj2 (Nat.eqb_neq _ _) Hne).
  destruct xs as [| x [| x' xs]]; destruct ys as [| y [| y' ys]];
    simpl in *; try reflexivity; contradiction.
Qed.

(** The length of a quotient: that of the operands when they agree, that of
    the other operand when one has a single entry. *)
Lemma np_divide_length (xs ys : list Z) (r : list float64) :
  np_divide xs ys = Ok r ->
  (length xs = length ys /\ length r = length xs)
  \/ (length xs = 1%nat /\ length r = length ys)
  \/ (length ys = 1%nat /\ length r = length xs).
Proof.
  unfold np_divide. destruct (Nat.eqb_spec (length xs) (length ys)) as [E | E].
  - intros [= <-]. left. split; [assumption | now apply zip_with_length].
  - destruct xs as [| x [| x' xs]]; destruct ys as [| y [| y' ys]];
      simpl; try discriminate; intros [= <-]; simpl;
      rewrite ?length_map; auto.
Qed.

Lemma item_out_of_range {A : Type} (a : list A) (i : nat) :
  (length a <= i)%nat -> item a i = Raise IndexError.
Proof.
  intros H. unfold item. now rewrite (proj2 (nth_error_None a i) H).
Qed.

Lemma item_Ok {A : Type} (a : list A) (i : nat) (v : A) :
  item a i = Ok v <-> nth_error a i = Some v.
Proof.
  unfold item. destruct (nth_error a i); split; congruence.
Qed.

Lemma true_divide_by_zero (a : Z) :
  a <> 0 -> is_finite (true_divide a 0) = false.
Proof.
  intros Ha. unfold true_divide. simpl.
  destruct (Z.ltb_spec 0 a); [reflexivity |].
  destruct (Z.ltb_spec a 0); [reflexivity | lia].
Qed.

Lemma ratio_2020_dict_Ok (df : frame ChargerY) (data_ev_cars : DataFrame) (v : float64) :
  ratio_2020_dict df data_ev_cars = Ok ("2020", v)
  <-> exists r, ratio df data_ev_cars = Ok r /\ nth_error r 8 = Some v.
Proof.
  unfold ratio_2020_dict. destruct (ratio df data_ev_cars) as [r | e]; cbn [bind].
  - unfold item. destruct (nth_error r 8) as [w |] eqn:E; cbn [bind]; split.
    + intros [= <-]. now exists r.
    + intros [r' [[= <-] H]]. congruence.
    + discriminate.
    + intros [r' [[= <-] H]]. congruence.
  - split; [discriminate | intros [r [H _]]; discriminate].
Qed.

Lemma ratio_unfold (df : frame ChargerY) (data_ev_cars : DataFrame)
  (m : MergedFrame) (p : list Z) :
  ev_merged df data_ev_cars = Ok m ->
  merged_getitem "plug_rollingSUM" m = Ok p ->
  ratio df data_ev_cars = np_divide p (chargers_avail df).
Proof.
  intros Hm Hp. unfold ratio, plug_array. rewrite Hm. cbn [bind]. now rewrite Hp.
Qed.

Lemma merged_getitem_length (name : string) (m : MergedFrame) (p : list Z) :
  merged_getitem name m = Ok p -> length p = length (merged_rows m).
Proof.
  unfold merged_getitem. destruct (index_of name (right_columns m)); [| discriminate].
  intros [= <-]. apply length_map.
Qed.

(** The two operands do not both come from the joined series: with chargers
    of 2011 and 2012 in service and one of 2013 out of service, and vehicles
    of 2012 and 2013, the code divides the plug-in counts of 2012 and 2013
    by the in-service counts of 2011 and 2012, where the joined series has a
    single year, 2012, with both counts. *)
Lemma ratio_operands_not_joined :
  prepare iso_year registry_misaligned = Ok cleaned_misaligned /\
  map is_yearCreated (ev_chargers_in_service cleaned_misaligned) = [2011; 2012] /\
  ratio cleaned_misaligned (derive_cars veh_2012_2013)
    = Ok [Finite (4 # 1); Finite (3 # 1)] /\
  ratio_on_joined cleaned_misaligned (derive_cars veh_2012_2013)
    = Ok [Finite (2 # 1)] /\
  ratio cleaned_misaligned (derive_cars veh_2012_2013)
    <> ratio_on_joined cleaned_misaligned (derive_cars veh_2012_2013).
Proof.
  repeat split; try reflexivity. vm_compute. discriminate.
Qed.

(** C1, amended. The dividend is the [plug_rollingSUM] column of the joined
    table; the divisor is the [rollingSUM_in_service] column of the
    in-service aggregate, which is built apart and never joined on the year.
    When the two have the same length the ratio series is their quotient
    position by position; when the lengths differ and neither is one, the
    division raises [ValueError].  The value stored under '2020' is the
    element at zero-based position 8 of the ratio series. *)
Theorem ratio_divides_position_by_position
  (df : frame ChargerY) (data_ev_cars : DataFrame) (m : MergedFrame) (p : list Z) :
  ev_merged df data_ev_cars = Ok m ->
  merged_getitem "plug_rollingSUM" m = Ok p ->
  (length p = length (ev_chargers_in_service df) ->
     ratio df data_ev_cars
       = Ok (zip_with true_divide p
               (map rollingSUM_in_service (ev_chargers_in_service df))) /\
     forall i x a,
       nth_error p i = Some x ->
       nth_error (ev_chargers_in_service df) i = Some a ->
       exists r, ratio df data_ev_cars = Ok r /\
                 nth_error r i = Some (true_divide x (rollingSUM_in_service a))) /\
  (length p <> length (ev_chargers_in_service df) ->
   length p <> 1%nat -> length (ev_chargers_in_service df) <> 1%nat ->
     ratio df data_ev_cars = Raise ValueError) /\
  (forall v, ratio_2020_dict df data_ev_cars = Ok ("2020", v)
             <-> exists r, ratio df data_ev_cars = Ok r /\ nth_error r 8 = Some v).
Proof.
  intros Hm Hp. rewrite (ratio_unfold _ _ _ _ Hm Hp). unfold chargers_avail.
  split; [| split].
  - intros Hlen.
    assert (E : np_divide p (map rollingSUM_in_service (ev_chargers_in_service df))
                = Ok (zip_with true_divide p
                        (map rollingSUM_in_service (ev_chargers_in_service df)))).
    { apply np_divide_same_length. now rewrite length_map. }
    split; [exact E |].
    intros i x a Hx Ha. eexists. split; [exact E |].
    apply zip_with_nth_error; [assumption |].
    now apply map_nth_error.
  - intros Hne H1 H2. apply np_divide_mismatch; rewrite ?length_map; assumption.
  - intros v. rewrite ratio_2020_dict_Ok.
    now rewrite (ratio_unfold _ _ _ _ Hm Hp).
Qed.

(** Nine years of chargers and of vehicles: both arrays have nine entries
    and position 8 holds 230 / 9. *)
Lemma ratio_divides_position_by_position_witness :
  ev_merged cleaned_nine_ids (derive_cars veh_nine) = Ok joined_nine_nine /\
  merged_getitem "plug_rollingSUM" joined_nine_nine
    = Ok [2; 5; 10; 18; 31; 52; 86; 141; 230] /\
  map rollingSUM_in_service (ev_chargers_in_service cleaned_nine_ids)
    = [1; 2; 3; 4; 5; 6; 7; 8; 9] /\
  ratio_2020_dict cleaned_nine_ids (derive_cars veh_nine) = Ok ("2020", Finite (230 # 9)).
Proof.
  assert (Hm : ev_merged cleaned_nine_ids (derive_cars veh_nine) = Ok joined_nine_nine)
    by reflexivity.
  assert (Hp : merged_getitem "plug_rollingSUM" joined_nine_nine
               = Ok [2; 5; 10; 18; 31; 52; 86; 141; 230]) by reflexivity.
  split; [exact Hm |]. split; [exact Hp |]. split; [reflexivity |].
  destruct (ratio_divides_position_by_position _ _ _ _ Hm Hp) as [Hsame [_ H2020]].
  apply H2020.
  destruct (Hsame eq_refl) as [Hr _].
  eexists. split; [exact Hr |]. reflexivity.
Defined.

(** ** Fewer than nine joined rows *)

(** A joined table of fewer than nine rows does not always make the
    extraction fail: with nine years of chargers in service and vehicles of
    2020 only, the joined table has one row, its plug-in count is stretched
    over the nine in-service counts, and position 8 holds a value. *)
Lemma one_joined_row_yields_a_value :
  prepare iso_year registry_nine_ids = Ok cleaned_nine_ids /\
  ev_merged cleaned_nine_ids (derive_cars veh_2020) = Ok joined_nine_one /\
  length (merged_rows joined_nine_one) = 1%nat /\
  ratio_2020_dict cleaned_nine_ids (derive_cars veh_2020) = Ok ("2020", Finite (10 # 1)) /\
  main iso_year registry_nine_ids veh_2020 = Ok ("2020", Finite (10 # 1)) /\
  ~ raises (ratio_2020_dict cleaned_nine_ids (derive_cars veh_2020)).
Proof.
  repeat split; try reflexivity. intros [e H]. vm_compute in H. discriminate.
Qed.

(** C9, amended. When the joined table has fewer than nine rows, the
    extraction at position 8 raises an error, unless the joined table has
    exactly one row and the in-service aggregate has at least nine: then the
    single plug-in count is divided by each in-service count and the value at
    position 8 is returned. *)
Theorem short_join_raises
  (df : frame ChargerY) (data_ev_cars : DataFrame) (m : MergedFrame) :
  ev_merged df data_ev_cars = Ok m ->
  (length (merged_rows m) < 9)%nat ->
  (~ (length (merged_rows m) = 1%nat /\ (9 <= length (ev_chargers_in_service df))%nat) ->
     raises (ratio_2020_dict df data_ev_cars)) /\
  (length (merged_rows m) = 1%nat -> (9 <= length (ev_chargers_in_service df))%nat ->
     forall p, merged_getitem "plug_rollingSUM" m = Ok p ->
     exists x a, p = [x] /\ nth_error (ev_chargers_in_service df) 8 = Some a /\
       ratio_2020_dict df data_ev_cars
         = Ok ("2020", true_divide x (rollingSUM_in_service a))).
Proof.
  intros Hm Hshort. split.
  - intros Hnot. unfold ratio_2020_dict.
    destruct (merged_getitem "plug_rollingSUM" m) as [p | e] eqn:Hp.
    + rewrite (ratio_unfold _ _ _ _ Hm Hp).
      pose proof (merged_getitem_length _ _ _ Hp) as Hlen.
      destruct (np_divide p (chargers_avail df)) as [r | e] eqn:Hr; cbn [bind].
      * assert (Hr9 : (length r < 9)%nat).
        { apply np_divide_length in Hr. unfold chargers_avail in Hr.
          rewrite length_map in Hr. lia. }
        rewrite item_out_of_range by lia. now exists IndexError.
      * now exists e.
    + unfold ratio, plug_array. rewrite Hm. cbn [bind]. rewrite Hp. now exists e.
  - intros H1 H9 p Hp.
    pose proof (merged_getitem_length _ _ _ Hp) as Hlen.
    destruct p as [| x [| x' p]]; simpl in Hlen; try lia.
    destruct (nth_error (ev_chargers_in_service df) 8) as [a |] eqn:Ha;
      [| apply nth_error_None in Ha; lia].
    exists x, a. split; [reflexivity | split; [reflexivity |]].
    apply ratio_2020_dict_Ok. rewrite (ratio_unfold _ _ _ _ Hm Hp).
    unfold np_divide, chargers_avail. rewrite length_map.
    destruct (Nat.eqb_spec (length [x]) (length (ev_chargers_in_service df))) as [E | E];
      [simpl in E; lia |].
    eexists. split; [reflexivity |].
    rewrite nth_error_map, nth_error_map, Ha. reflexivity.
Qed.

(** One joined row against two in-service years: the ratio has two entries
    and position 8 is out of range. *)
Lemma short_join_raises_witness :
  ev_merged cleaned_five (derive_cars veh_one_row) = Ok joined_five_one /\
  length (merged_rows joined_five_one) = 1%nat /\
  length (ev_chargers_in_service cleaned_five) = 2%nat /\
  raises (ratio_2020_dict cleaned_five (derive_cars veh_one_row)).
Proof.
  assert (Hm : ev_merged cleaned_five (derive_cars veh_one_row) = Ok joined_five_one)
    by reflexivity.
  assert (Hshort : (length (merged_rows joined_five_one) < 9)%nat)
    by (vm_compute; lia).
  split; [exact Hm |]. split; [reflexivity |]. split; [reflexivity |].
  apply (proj1 (short_join_raises _ _ _ Hm Hshort)).
  intros [_ H]. vm_compute in H. lia.
Defined.

(** ** Division by a zero count *)

(** C10. The division has no guard against a zero divisor.  A non-zero
    plug-in count over a zero in-service count is an infinity, not an error:
    wherever two arrays of equal length hold such a pair, the ratio series
    holds a non-finite value.  This happens on an input: with nine in-service
    chargers, one a year from 2012 to 2020 and none with a device ID, every
    cumulative in-service count is zero and the value stored under '2020' is
    infinite. *)
Theorem zero_divisor_gives_infinity :
  (forall xs ys i x,
     length xs = length ys ->
     nth_error xs i = Some x -> nth_error ys i = Some 0 -> x <> 0 ->
     exists r v, np_divide xs ys = Ok r /\ nth_error r i = Some v /\ is_finite v = false) /\
  prepare iso_year registry_nine_no_ids = Ok cleaned_nine_no_ids /\
  chargers_avail cleaned_nine_no_ids = [0; 0; 0; 0; 0; 0; 0; 0; 0] /\
  plug_array cleaned_nine_no_ids (derive_cars veh_nine)
    = Ok [2; 5; 10; 18; 31; 52; 86; 141; 230] /\
  ratio cleaned_nine_no_ids (derive_cars veh_nine)
    = Ok [PosInf; PosInf; PosInf; PosInf; PosInf; PosInf; PosInf; PosInf; PosInf] /\
  main iso_year registry_nine_no_ids veh_nine = Ok ("2020", PosInf) /\
  is_finite PosInf = false.
Proof.
  split.
  - intros xs ys i x Hlen Hx Hy Hne.
    exists (zip_with true_divide xs ys), (true_divide x 0).
    split; [now apply np_divide_same_length |].
    split; [now apply zip_with_nth_error | now apply true_divide_by_zero].
  - repeat split; reflexivity.
Qed.

(** * Further properties *)

(** ** From the registry file to the table with years *)

Lemma mapM_Ok {A B : Type} (f : A -> result B) (l : list A) : forall bs,
  mapM f l = Ok bs -> Forall2 (fun a b => f a = Ok b) l bs.
Proof.
  induction l as [| a l IH]; simpl; intros bs H.
  - injection H as <-. constructor.
  - destruct (f a) as [b | e] eqn:Fa; cbn [bind] in H; [| discriminate].
    destruct (mapM f l) as [bs' | e]; cbn [bind] in H; [| discriminate].
    injection H as <-. constructor; [assumption | now apply IH].
Qed.

Lemma mapM_Raise {A B : Type} (f : A -> result B) (l : list A) (e : exn) :
  mapM f l = Raise e -> exists a, In a l /\ f a = Raise e.
Proof.
  induction l as [| a l IH]; simpl; intros H; [discriminate |].
  destruct (f a) as [b | e'] eqn:Fa; cbn [bind] in H.
  - destruct (mapM f l) as [bs' | e'']; cbn [bind] in H; [discriminate |].
    destruct (IH H) as [a' [Hin Ha']]. exists a'. auto.
  - injection H as ->. exists a. auto.
Qed.

Lemma mapM_total {A B : Type} (f : A -> result B) (l : list A) :
  (forall a, In a l -> exists b, f a = Ok b) -> exists bs, mapM f l = Ok bs.
Proof.
  induction l as [| a l IH]; simpl; intros H.
  - now exists [].
  - destruct (H a (or_introl eq_refl)) as [b ->].
    destruct IH as [bs ->]; [intros a' Ha'; apply H; now right |].
    now exists (b :: bs).
Qed.

Lemma add_yearCreated_rows (parse_year : string -> option Z) (df : frame Charger) :
  forall df', add_yearCreated parse_year df = Ok df' ->
  map (fun lr => (fst lr, charger (snd lr))) df' = df /\
  forall lr, In lr df' ->
    yearCreated (snd lr)
    = match dateCreated (snd lr) with
      | Some s => parse_year s
      | None => None
      end.
Proof.
  intros df' H. apply mapM_Ok in H.
  induction H as [| [l r] [l' r'] df df' Hhead Htail IH]; simpl.
  - split; [reflexivity | contradiction].
  - destruct IH as [IHrows IHyears]. simpl in Hhead.
    unfold year_of in Hhead.
    destruct (dateCreated r) as [s |] eqn:D.
    + destruct (parse_year s) as [y |] eqn:P; cbn [bind] in Hhead; [| discriminate].
      injection Hhead as <- <-. simpl. split; [now rewrite IHrows |].
      intros lr [<- | Hin]; [simpl; now rewrite D | now apply IHyears].
    + cbn [bind] in Hhead. injection Hhead as <- <-. simpl.
      split; [now rewrite IHrows |].
      intros lr [<- | Hin]; [simpl; now rewrite D | now apply IHyears].
Qed.

Lemma prepare_unfold (parse_year : string -> option Z) (registry : list Charger) :
  prepare parse_year registry
  = add_yearCreated parse_year
      (filter (fun lr => negb (eq_str (dateCreated (snd lr)) zero_date))
              (read_csv registry)).
Proof.
  unfold prepare. now rewrite (clean_is_filter _ (read_csv_NoDup registry)).
Qed.

(** X1. When the preparation of the registry succeeds, the table it leaves
    holds, in their order, exactly the lines whose [dateCreated] is not the
    all-zero timestamp, each unchanged, and the [yearCreated] of a row is the
    year read from its [dateCreated], or missing when [dateCreated] is
    missing. *)
Theorem prepare_keeps_lines_and_reads_years
  (parse_year : string -> option Z) (registry : list Charger) (df : frame ChargerY) :
  prepare parse_year registry = Ok df ->
  map (fun lr => charger (snd lr)) df
    = filter (fun r => negb (eq_str (dateCreated r) zero_date)) registry /\
  forall lr, In lr df ->
    yearCreated (snd lr)
    = match dateCreated (snd lr) with
      | Some s => parse_year s
      | None => None
      end.
Proof.
  rewrite prepare_unfold. intros H.
  destruct (add_yearCreated_rows _ _ _ H) as [Hrows Hyears].
  split; [| exact Hyears].
  transitivity (map snd (map (fun lr : nat * ChargerY => (fst lr, charger (snd lr))) df)).
  - now rewrite map_map.
  - rewrite Hrows.
    rewrite (map_snd_filter (fun r => negb (eq_str (dateCreated r) zero_date))).
    now rewrite read_csv_rows.
Qed.

Lemma prepare_keeps_lines_and_reads_years_witness :
  prepare iso_year registry_five = Ok cleaned_five /\
  map (fun lr => yearCreated (snd lr)) cleaned_five
    = [Some 2019; Some 2019; Some 2020; Some 2020; Some 2020] /\
  map (fun lr => charger (snd lr)) cleaned_five
    = filter (fun r => negb (eq_str (dateCreated r) zero_date)) registry_five.
Proof.
  assert (H : prepare iso_year registry_five = Ok cleaned_five) by reflexivity.
  split; [exact H |]. split; [reflexivity |].
  exact (proj1 (prepare_keeps_lines_and_reads_years _ _ _ H)).
Defined.

(** X2. The preparation of the registry succeeds exactly when the parser reads
    a year from every present [dateCreated] other than the all-zero
    timestamp; when it fails, it fails with the parser's error and nothing
    else. *)
Theorem prepare_succeeds_iff_timestamps_parse
  (parse_year : string -> option Z) (registry : list Charger) :
  ((exists df, prepare parse_year registry = Ok df)
   <-> forall r s, In r registry -> dateCreated r = Some s -> s <> zero_date ->
                   parse_year s <> None) /\
  (forall e, prepare parse_year registry = Raise e -> e = ParserError).
Proof.
  rewrite prepare_unfold. split; [split |].
  - intros [df H] r s Hin Hs Hz Hp.
    apply mapM_Ok in H.
    assert (Hkept : In r (map snd (filter
              (fun lr => negb (eq_str (dateCreated (snd lr)) zero_date))
              (read_csv registry)))).
    { rewrite (map_snd_filter (fun r => negb (eq_str (dateCreated r) zero_date))).
      rewrite read_csv_rows. apply filter_In. split; [assumption |].
      apply negb_true_iff, eq_str_false. congruence. }
    apply in_map_iff in Hkept. destruct Hkept as [[l r'] [Hr' Hkept]].
    simpl in Hr'. subst r'.
    revert Hkept. induction H as [| x y xs ys Hxy _ IH]; simpl; [tauto |].
    intros [-> | Hin']; [| now apply IH].
    simpl in Hxy. unfold year_of in Hxy. rewrite Hs, Hp in Hxy. discriminate.
  - intros Hall. apply mapM_total. intros [l r] Hin. simpl.
    apply filter_In in Hin. destruct Hin as [Hin Hz]. simpl in Hz.
    unfold year_of. destruct (dateCreated r) as [s |] eqn:D.
    + destruct (parse_year s) as [y |] eqn:P; [eexists; reflexivity |].
      exfalso. apply (Hall r s); auto.
      * rewrite <- (read_csv_rows registry). now apply (in_map snd _ (l, r)).
      * intros ->. unfold eq_str in Hz. rewrite String.eqb_refl in Hz. discriminate.
    + eexists; reflexivity.
  - intros e H. apply mapM_Raise in H. destruct H as [[l r] [_ H]]. simpl in H.
    unfold year_of in H. destruct (dateCreated r) as [s |].
    + destruct (parse_year s); cbn [bind] in H; [discriminate | congruence].
    + discriminate.
Qed.

Lemma combine_seq_In (registry : list Charger) : forall (start l : nat) (r : Charger),
  In (l, r) (combine (seq start (length registry)) registry)
  <-> (start <= l)%nat /\ nth_error registry (l - start) = Some r.
Proof.
  induction registry as [| r0 rest IH]; intros start l r; simpl.
  - split; [contradiction | intros [_ H]]. now destruct (l - start)%nat.
  - rewrite IH. split.
    + intros [[= <- <-] | [Hle Hnth]].
      * split; [lia |]. now rewrite Nat.sub_diag.
      * split; [lia |]. replace (l - start)%nat with (S (l - S start)) by lia.
        exact Hnth.
    + intros [Hle Hnth]. destruct (Nat.eq_dec l start) as [-> | Hne].
      * left. rewrite Nat.sub_diag in Hnth. simpl in Hnth. congruence.
      * right. split; [lia |].
        replace (l - start)%nat with (S (l - S start)) in Hnth by lia.
        exact Hnth.
Qed.

Lemma read_csv_In (registry : list Charger) (l : nat) (r : Charger) :
  In (l, r) (read_csv registry) <-> nth_error registry l = Some r.
Proof.
  unfold read_csv. rewrite combine_seq_In, Nat.sub_0_r.
  split; [tauto | intros H; split; [lia | exact H]].
Qed.

Lemma seq_ascending (n : nat) : forall start, StronglySorted lt (seq start n).
Proof.
  induction n as [| n IH]; intros start; simpl; constructor.
  - apply IH.
  - apply Forall_forall. intros x Hx. apply in_seq in Hx. lia.
Qed.

Lemma filter_keeps_order {A B : Type} (R : B -> B -> Prop) (f : A -> B)
  (p : A -> bool) (l : list A) :
  StronglySorted R (map f l) -> StronglySorted R (map f (filter p l)).
Proof.
  induction l as [| a l IH]; simpl; intros H; [constructor |].
  inversion H as [| ? ? Hs Hall]; subst.
  destruct (p a); simpl; [| now apply IH].
  constructor; [now apply IH |].
  rewrite Forall_forall in *. intros b Hb. apply Hall.
  apply in_map_iff in Hb. destruct Hb as [a' [<- Ha']].
  apply in_map. apply filter_In in Ha'. tauto.
Qed.

Lemma ascending_labels_NoDup (labels : list nat) :
  StronglySorted lt labels -> NoDup labels.
Proof.
  induction 1 as [| l labels Hs IH Hall]; constructor; [| assumption].
  intros Hin. rewrite Forall_forall in Hall. specialize (Hall l Hin). lia.
Qed.

Lemma cleaned_labels_ascending (registry : list Charger) (p : nat * Charger -> bool) :
  StronglySorted lt (map fst (filter p (read_csv registry))).
Proof.
  apply filter_keeps_order. rewrite read_csv_labels. apply seq_ascending.
Qed.

(** X3. The index is not renumbered: after a successful preparation every
    row still carries the number of its line in the registry file, so the
    labels ascend, with a gap wherever a line was dropped. *)
Theorem prepare_keeps_line_numbers
  (parse_year : string -> option Z) (registry : list Charger) (df : frame ChargerY) :
  prepare parse_year registry = Ok df ->
  (forall lr, In lr df -> nth_error registry (fst lr) = Some (charger (snd lr))) /\
  StronglySorted lt (map fst df).
Proof.
  rewrite prepare_unfold. intros H.
  destruct (add_yearCreated_rows _ _ _ H) as [Hrows _].
  split.
  - intros lr Hin. apply read_csv_In.
    assert (Hkept : In (fst lr, charger (snd lr))
                       (filter (fun lr => negb (eq_str (dateCreated (snd lr)) zero_date))
                               (read_csv registry))).
    { rewrite <- Hrows.
      now apply (in_map (fun lr : nat * ChargerY => (fst lr, charger (snd lr)))). }
    apply filter_In in Hkept. tauto.
  - replace (map fst df)
      with (map fst (map (fun lr : nat * ChargerY => (fst lr, charger (snd lr))) df))
      by (now rewrite map_map).
    rewrite Hrows. apply cleaned_labels_ascending.
Qed.

Lemma prepare_keeps_line_numbers_witness :
  prepare iso_year
    [ registry_line (Some "z0") "In service" zero_date;
      registry_line (Some "a1") "In service" "2019-02-11 09:30:00" ]
  = Ok [ (1%nat, {| charger := registry_line (Some "a1") "In service" "2019-02-11 09:30:00";
                    yearCreated := Some 2019 |}) ] /\
  StronglySorted lt [1%nat].
Proof.
  assert (H : prepare iso_year
                [ registry_line (Some "z0") "In service" zero_date;
                  registry_line (Some "a1") "In service" "2019-02-11 09:30:00" ]
              = Ok [ (1%nat,
                      {| charger := registry_line (Some "a1") "In service"
                                      "2019-02-11 09:30:00";
                         yearCreated := Some 2019 |}) ]) by reflexivity.
  split; [exact H |].
  exact (proj2 (prepare_keeps_line_numbers _ _ _ H)).
Defined.

Lemma filter_twice {A : Type} (p : A -> bool) (l : list A) :
  filter p (filter p l) = filter p l.
Proof.
  induction l as [| a l IH]; simpl; [reflexivity |].
  destruct (p a) eqn:Pa; simpl; [rewrite Pa; now f_equal | assumption].
Qed.

(** X4. Cleaning a second time changes nothing and raises nothing: the
    labels that the first pass left are still distinct, and no row with the
    all-zero timestamp is left to drop. *)
Theorem clean_is_idempotent (registry : list Charger) :
  (cleaned <- clean (read_csv registry) ;; clean cleaned) = clean (read_csv registry).
Proof.
  rewrite (clean_is_filter _ (read_csv_NoDup registry)). cbn [bind].
  rewrite clean_is_filter.
  - now rewrite filter_twice.
  - apply ascending_labels_NoDup, cleaned_labels_ascending.
Qed.

(** ** What the cumulative counts count *)

Lemma ascending_prefix (ks : list Z) : forall (i : nat) (y x : Z),
  StronglySorted Z.lt ks -> nth_error ks i = Some y -> In x ks ->
  existsb (Z.eqb x) (firstn (S i) ks) = (x <=? y).
Proof.
  induction ks as [| k ks IH]; intros i y x Hs Hy Hx; [contradiction |].
  inversion Hs as [| ? ? Hs' Hall]; subst. rewrite Forall_forall in Hall.
  change (firstn (S i) (k :: ks)) with (k :: firstn i ks). simpl existsb.
  destruct i as [| i]; simpl in Hy.
  - injection Hy as ->. simpl. rewrite orb_false_r.
    destruct Hx as [-> | Hx].
    + rewrite Z.eqb_refl. symmetry. apply Z.leb_le. lia.
    + specialize (Hall x Hx).
      rewrite (proj2 (Z.eqb_neq x y)) by lia. symmetry. apply Z.leb_gt. lia.
  - assert (Hky : k < y) by (apply Hall; eapply nth_error_In; eauto).
    destruct Hx as [-> | Hx].
    + rewrite Z.eqb_refl. simpl. symmetry. apply Z.leb_le. lia.
    + specialize (Hall x Hx).
      rewrite (proj2 (Z.eqb_neq x k)) by lia. simpl. now apply IH.
Qed.

Lemma firstn_subset {A : Type} (l : list A) : forall (n : nat) (x : A),
  In x (firstn n l) -> In x l.
Proof.
  induction l as [| a l IH]; intros [| n] x H; simpl in *; try contradiction.
  destruct H as [-> | H]; [now left | right; eapply IH; eauto].
Qed.

Lemma ascending_firstn (n : nat) (ks : list Z) :
  StronglySorted Z.lt ks -> StronglySorted Z.lt (firstn n ks).
Proof.
  intros Hs. revert n. induction Hs as [| k ks Hs IH Hall]; intros [| n]; simpl;
    try constructor.
  - apply IH.
  - rewrite Forall_forall in *. intros x Hx. apply Hall.
    eapply firstn_subset. exact Hx.
Qed.

Lemma count_where_filter {A : Type} (f g : A -> bool) (l : list A) :
  count_where f (filter g l) = count_where (fun a => g a && f a) l.
Proof.
  induction l as [| a l IH]; [reflexivity |].
  simpl filter. rewrite (count_where_cons (fun a => g a && f a)).
  destruct (g a); simpl andb.
  - now rewrite count_where_cons, IH.
  - now rewrite IH.
Qed.

Lemma count_where_le {A : Type} (f g : A -> bool) (l : list A) :
  (forall a, In a l -> f a = true -> g a = true) -> count_where f l <= count_where g l.
Proof.
  induction l as [| a l IH]; intros H; [unfold count_where; simpl; lia |].
  rewrite !count_where_cons.
  assert (count_where f l <= count_where g l)
    by (apply IH; intros b Hb; apply H; now right).
  specialize (H a (or_introl eq_refl)).
  destruct (f a), (g a); try lia; discriminate (H eq_refl).
Qed.

Lemma count_where_positive {A : Type} (f : A -> bool) (l : list A) (a : A) :
  In a l -> f a = true -> 1 <= count_where f l.
Proof.
  induction l as [| b l IH]; intros Hin Hf; [contradiction |].
  rewrite count_where_cons. pose proof (count_where_nonneg f l).
  destruct Hin as [-> | Hin].
  - rewrite Hf. lia.
  - specialize (IH Hin Hf). destruct (f b); lia.
Qed.

(** The cumulative count that stands beside the group key [y] counts the
    rows, with a device ID, of the year [y] or of an earlier year. *)
Lemma cumulative_count (df : frame ChargerY) (i : nat) (y : Z) :
  nth_error (group_keys (map (fun lr => yearCreated (snd lr)) df)) i = Some y ->
  nth_error (cumsum (map snd (groupby_count df))) i
  = Some (count_where (fun lr => year_le y (snd lr) && notna (chargeDeviceID (snd lr))) df).
Proof.
  intros Hy. set (keys := group_keys (map (fun lr => yearCreated (snd lr)) df)) in *.
  assert (Hsorted : StronglySorted Z.lt keys) by apply group_keys_sorted.
  unfold cumsum. rewrite cumsum_from_nth.
  - f_equal. rewrite Z.add_0_l, groupby_count_counts. fold keys.
    rewrite firstn_map. unfold group_count.
    rewrite (total_group_counts (fun r => notna (chargeDeviceID r))).
    + apply count_where_ext. intros lr Hin. f_equal.
      unfold year_in, year_le.
      destruct (yearCreated (snd lr)) as [y' |] eqn:Y; [| reflexivity].
      apply ascending_prefix; auto.
      apply group_keys_In. rewrite <- Y.
      now apply (in_map (fun x => yearCreated (snd x))).
    + apply sorted_NoDup, ascending_firstn, Hsorted.
  - rewrite groupby_count_counts, length_map. fold keys.
    apply nth_error_Some. congruence.
Qed.

Lemma chargers_installed_row (df : frame ChargerY) (a : YearCount) :
  In a (chargers_installed df) ->
  In (yc_yearCreated a) (group_keys (map (fun lr => yearCreated (snd lr)) df)) /\
  num_charges a = group_count df (yc_yearCreated a) /\
  rollingSUM a
  = count_where (fun lr => year_le (yc_yearCreated a) (snd lr)
                           && notna (chargeDeviceID (snd lr))) df.
Proof.
  intros Ha. destruct (In_nth_error _ _ Ha) as [i Hi].
  pose proof (map_nth_error yc_yearCreated _ _ Hi) as Hy.
  pose proof (map_nth_error num_charges _ _ Hi) as Hn.
  pose proof (map_nth_error rollingSUM _ _ Hi) as Hs.
  rewrite chargers_installed_years in Hy.
  rewrite chargers_installed_sums, chargers_installed_counts in Hs.
  rewrite chargers_installed_counts, groupby_count_counts in Hn.
  rewrite (cumulative_count _ _ _ Hy) in Hs.
  rewrite nth_error_map, Hy in Hn. simpl in Hn.
  split; [eapply nth_error_In; eauto |]. split; congruence.
Qed.

Lemma in_service_row (df : frame ChargerY) (a : InServiceCount) :
  In a (ev_chargers_in_service df) ->
  let selected := filter (fun lr => in_service_before_2021 (snd lr)) df in
  In (is_yearCreated a) (group_keys (map (fun lr => yearCreated (snd lr)) selected)) /\
  num_charges_in_service a = group_count selected (is_yearCreated a) /\
  rollingSUM_in_service a
  = count_where (fun lr => year_le (is_yearCreated a) (snd lr)
                           && notna (chargeDeviceID (snd lr))) selected.
Proof.
  intros Ha selected. destruct (In_nth_error _ _ Ha) as [i Hi].
  pose proof (map_nth_error is_yearCreated _ _ Hi) as Hy.
  pose proof (map_nth_error num_charges_in_service _ _ Hi) as Hn.
  pose proof (map_nth_error rollingSUM_in_service _ _ Hi) as Hs.
  rewrite in_service_years in Hy.
  rewrite in_service_sums, in_service_counts in Hs.
  rewrite in_service_counts, groupby_count_counts in Hn.
  fold selected in Hy, Hn, Hs.
  rewrite (cumulative_count _ _ _ Hy) in Hs.
  rewrite nth_error_map, Hy in Hn. simpl in Hn.
  split; [eapply nth_error_In; eauto |]. split; congruence.
Qed.

(** X5. In the yearly aggregate, the [rollingSUM] of a year is the number of
    cleaned rows with a device ID that were created in that year or in an
    earlier one, and its [num_charges] the number of those created in that
    year. *)
Theorem rollingSUM_counts_up_to_year (df : frame ChargerY) (a : YearCount) :
  In a (chargers_installed df) ->
  num_charges a
    = count_where (fun lr => year_is (yc_yearCreated a) (snd lr)
                             && notna (chargeDeviceID (snd lr))) df /\
  rollingSUM a
    = count_where (fun lr => year_le (yc_yearCreated a) (snd lr)
                             && notna (chargeDeviceID (snd lr))) df.
Proof.
  intros Ha. destruct (chargers_installed_row df a Ha) as [_ [Hn Hs]].
  split; assumption.
Qed.

Lemma rollingSUM_counts_up_to_year_witness :
  In {| yc_yearCreated := 2020; num_charges := 3; rollingSUM := 5 |}
     (chargers_installed cleaned_five) /\
  count_where (fun lr => year_le 2020 (snd lr) && notna (chargeDeviceID (snd lr)))
              cleaned_five = 5.
Proof.
  assert (H : In {| yc_yearCreated := 2020; num_charges := 3; rollingSUM := 5 |}
                 (chargers_installed cleaned_five)) by (right; left; reflexivity).
  split; [exact H |].
  symmetry. exact (proj2 (rollingSUM_counts_up_to_year _ _ H)).
Defined.

(** X6. In the in-service aggregate, the [rollingSUM_in_service] of a year is
    the number of cleaned rows that are in service, are not of 2021, have a
    device ID and were created in that year or in an earlier one. *)
Theorem rollingSUM_in_service_counts_up_to_year (df : frame ChargerY) (a : InServiceCount) :
  In a (ev_chargers_in_service df) ->
  rollingSUM_in_service a
    = count_where (fun lr => in_service_before_2021 (snd lr)
                             && (year_le (is_yearCreated a) (snd lr)
                                 && notna (chargeDeviceID (snd lr)))) df.
Proof.
  intros Ha. destruct (in_service_row df a Ha) as [_ [_ Hs]].
  rewrite Hs. apply (count_where_filter
    (fun lr => year_le (is_yearCreated a) (snd lr) && notna (chargeDeviceID (snd lr)))
    (fun lr => in_service_before_2021 (snd lr))).
Qed.

Lemma rollingSUM_in_service_counts_up_to_year_witness :
  In {| is_yearCreated := 2020; num_charges_in_service := 2; rollingSUM_in_service := 4 |}
     (ev_chargers_in_service cleaned_five) /\
  count_where (fun lr => in_service_before_2021 (snd lr)
                         && (year_le 2020 (snd lr) && notna (chargeDeviceID (snd lr))))
              cleaned_five = 4.
Proof.
  assert (H : In {| is_yearCreated := 2020; num_charges_in_service := 2;
                    rollingSUM_in_service := 4 |}
                 (ev_chargers_in_service cleaned_five)) by (right; left; reflexivity).
  split; [exact H |].
  symmetry. exact (rollingSUM_in_service_counts_up_to_year _ _ H).
Defined.

Lemma last_cons {A : Type} (l : list A) : forall (a d : A), last (a :: l) d = last l a.
Proof.
  induction l as [| b l IH]; intros a d; [reflexivity |].
  change (last (a :: b :: l) d) with (last (b :: l) d).
  now rewrite (IH b d), (IH b a).
Qed.

Lemma cumsum_from_last (xs : list Z) : forall acc,
  last (cumsum_from acc xs) acc = acc + total xs.
Proof.
  induction xs as [| x xs IH]; intros acc; simpl cumsum_from.
  - simpl. lia.
  - rewrite last_cons, IH. simpl. lia.
Qed.

(** X7. The last [rollingSUM] of the yearly aggregate (zero when the
    aggregate is empty) is the number of all cleaned rows that have a year
    and a device ID; the last in-service count is the number of those that
    are in service and not of 2021. *)
Theorem last_rollingSUM_is_grand_total (df : frame ChargerY) :
  last (map rollingSUM (chargers_installed df)) 0
    = count_where (fun lr => counted (snd lr)) df /\
  last (chargers_avail df) 0
    = count_where (fun lr => in_service_before_2021 (snd lr) && counted (snd lr)) df.
Proof.
  split.
  - rewrite chargers_installed_sums, chargers_installed_counts.
    unfold cumsum. rewrite cumsum_from_last, Z.add_0_l. apply total_groupby_count.
  - unfold chargers_avail. rewrite in_service_sums, in_service_counts.
    unfold cumsum. rewrite cumsum_from_last, Z.add_0_l, total_groupby_count.
    apply (count_where_filter (fun lr => counted (snd lr))
                              (fun lr => in_service_before_2021 (snd lr))).
Qed.

(** X8. Every year of the in-service aggregate is a year of the yearly
    aggregate, and there neither its count nor its cumulative count exceeds
    the one of all chargers. *)
Theorem in_service_within_installed (df : frame ChargerY) (a : InServiceCount) :
  In a (ev_chargers_in_service df) ->
  exists b,
    In b (chargers_installed df) /\
    yc_yearCreated b = is_yearCreated a /\
    num_charges_in_service a <= num_charges b /\
    rollingSUM_in_service a <= rollingSUM b.
Proof.
  intros Ha. destruct (in_service_row df a Ha) as [Hkey [Hn Hs]].
  apply group_keys_In, in_map_iff in Hkey. destruct Hkey as [lr [Hy Hsel]].
  apply filter_In in Hsel. destruct Hsel as [Hdf _].
  assert (Hb : In (is_yearCreated a) (map yc_yearCreated (chargers_installed df))).
  { rewrite chargers_installed_years. apply group_keys_In. rewrite <- Hy.
    now apply (in_map (fun x => yearCreated (snd x))). }
  apply in_map_iff in Hb. destruct Hb as [b [Hyb Hb]].
  destruct (chargers_installed_row df b Hb) as [_ [Hnb Hsb]].
  exists b. split; [assumption |]. split; [assumption |].
  rewrite Hn, Hs, Hnb, Hsb, Hyb. unfold group_count.
  rewrite !count_where_filter.
  split; apply count_where_le; intros x _ Hx; apply andb_true_iff in Hx; tauto.
Qed.

Lemma in_service_within_installed_witness :
  In {| is_yearCreated := 2020; num_charges_in_service := 2; rollingSUM_in_service := 4 |}
     (ev_chargers_in_service cleaned_five) /\
  exists b,
    In b (chargers_installed cleaned_five) /\
    yc_yearCreated b = 2020 /\
    2 <= num_charges b /\
    4 <= rollingSUM b.
Proof.
  assert (H : In {| is_yearCreated := 2020; num_charges_in_service := 2;
                    rollingSUM_in_service := 4 |}
                 (ev_chargers_in_service cleaned_five)) by (right; left; reflexivity).
  split; [exact H |].
  exact (in_service_within_installed _ _ H).
Defined.

(** ** When the ratio is finite *)

Lemma true_divide_finite (a b : Z) : b <> 0 -> is_finite (true_divide a b) = true.
Proof.
  intros Hb. unfold true_divide. now rewrite (proj2 (Z.eqb_neq b 0) Hb).
Qed.

Lemma zip_divide_finite (xs : list Z) : forall ys,
  Forall (fun y => y <> 0) ys ->
  Forall (fun v => is_finite v = true) (zip_with true_divide xs ys).
Proof.
  induction xs as [| x xs IH]; intros [| y ys] Hys; simpl; try constructor.
  - inversion Hys; subst. now apply true_divide_finite.
  - inversion Hys; subst. now apply IH.
Qed.

(** The three ways in which a division succeeds. *)
Lemma np_divide_cases (xs ys : list Z) (r : list float64) :
  np_divide xs ys = Ok r ->
  (length xs = length ys /\ r = zip_with true_divide xs ys)
  \/ (exists x, xs = [x] /\ r = map (true_divide x) ys)
  \/ (exists y, ys = [y] /\ r = map (fun x => true_divide x y) xs).
Proof.
  unfold np_divide. destruct (Nat.eqb_spec (length xs) (length ys)) as [E | E].
  - intros [= <-]. now left.
  - destruct xs as [| x [| x' xs]]; destruct ys as [| y [| y' ys]];
      try discriminate; intros [= <-].
    + right; right. exists y. split; reflexivity.
    + right; left. exists x. split; reflexivity.
    + right; left. exists x. split; reflexivity.
    + right; left. exists x. split; reflexivity.
    + right; right. exists y. split; reflexivity.
Qed.

Lemma np_divide_finite (xs ys : list Z) (r : list float64) :
  Forall (fun y => y <> 0) ys -> np_divide xs ys = Ok r ->
  Forall (fun v => is_finite v = true) r.
Proof.
  intros Hys H. apply np_divide_cases in H.
  destruct H as [[_ ->] | [[x [_ ->]] | [y [-> ->]]]].
  - now apply zip_divide_finite.
  - apply Forall_forall. intros v Hv. apply in_map_iff in Hv.
    destruct Hv as [y [<- Hy]]. rewrite Forall_forall in Hys.
    apply true_divide_finite. now apply Hys.
  - apply Forall_forall. intros v Hv. apply in_map_iff in Hv.
    destruct Hv as [x [<- _]]. apply true_divide_finite. now inversion Hys.
Qed.

(** X9. When every in-service row that is not of 2021 has a device ID, each
    cumulative in-service count is at least one; the division then meets no
    zero divisor, and every entry of the ratio series, the one stored under
    '2020' included, is finite. *)
Theorem ratio_is_finite_when_ids_are_present
  (df : frame ChargerY) (data_ev_cars : DataFrame) :
  (forall lr, In lr df -> in_service_before_2021 (snd lr) = true ->
              chargeDeviceID (snd lr) <> None) ->
  Forall (fun c => 1 <= c) (chargers_avail df) /\
  (forall r, ratio df data_ev_cars = Ok r -> Forall (fun v => is_finite v = true) r) /\
  (forall v, ratio_2020_dict df data_ev_cars = Ok ("2020", v) -> is_finite v = true).
Proof.
  intros Hids.
  assert (Havail : Forall (fun c => 1 <= c) (chargers_avail df)).
  { apply Forall_forall. intros c Hc. unfold chargers_avail in Hc.
    apply in_map_iff in Hc. destruct Hc as [a [<- Ha]].
    destruct (in_service_row df a Ha) as [Hkey [_ Hs]]. rewrite Hs.
    apply group_keys_In, in_map_iff in Hkey. destruct Hkey as [lr [Hy Hsel]].
    apply (count_where_positive _ _ lr Hsel).
    apply filter_In in Hsel. destruct Hsel as [Hdf Hserv].
    unfold year_le. rewrite Hy, Z.leb_refl. simpl.
    specialize (Hids lr Hdf Hserv). now destruct (chargeDeviceID (snd lr)). }
  assert (Hratio : forall r, ratio df data_ev_cars = Ok r ->
                             Forall (fun v => is_finite v = true) r).
  { intros r Hr. unfold ratio in Hr.
    destruct (plug_array df data_ev_cars) as [p | e]; cbn [bind] in Hr; [| discriminate].
    apply (np_divide_finite p (chargers_avail df)); [| assumption].
    eapply Forall_impl; [| exact Havail]. intros c Hc. simpl in Hc. lia. }
  split; [assumption | split; [assumption |]].
  intros v Hv. apply ratio_2020_dict_Ok in Hv. destruct Hv as [r [Hr Hnth]].
  specialize (Hratio r Hr). rewrite Forall_forall in Hratio.
  apply Hratio. eapply nth_error_In; eauto.
Qed.

Lemma ratio_is_finite_when_ids_are_present_witness :
  chargers_avail cleaned_nine_ids = [1; 2; 3; 4; 5; 6; 7; 8; 9] /\
  ratio_2020_dict cleaned_nine_ids (derive_cars veh_nine) = Ok ("2020", Finite (230 # 9)) /\
  is_finite (Finite (230 # 9)) = true.
Proof.
  assert (Hids : forall lr, In lr cleaned_nine_ids ->
                   in_service_before_2021 (snd lr) = true ->
                   chargeDeviceID (snd lr) <> None).
  { intros lr Hin _. vm_compute in Hin.
    repeat (destruct Hin as [<- | Hin]; [discriminate |]). contradiction. }
  split; [reflexivity |]. split; [reflexivity |].
  apply (proj2 (proj2 (ratio_is_finite_when_ids_are_present
                         cleaned_nine_ids (derive_cars veh_nine) Hids))).
  reflexivity.
Defined.

(** ** Columns that the derivation adds *)

Lemma setitem_has_column (name : string) (col : list Z) (df : DataFrame) :
  exists j, index_of name (columns (setitem name col df)) = Some j.
Proof.
  unfold setitem. destruct (index_of name (columns df)) as [j |] eqn:E; simpl.
  - now exists j.
  - exists (length (columns df)). now apply index_of_app_new.
Qed.

Lemma setitem_other_column (name other : string) (col : list Z) (df : DataFrame) :
  other <> name ->
  index_of other (columns (setitem name col df)) = index_of other (columns df).
Proof.
  intros Hne. unfold setitem.
  destruct (index_of name (columns df)) eqn:E; simpl; [reflexivity |].
  destruct (index_of other (columns df)) as [j' |] eqn:E'.
  - now apply index_of_app_old.
  - apply index_of_app_other; [congruence | assumption].
Qed.

Lemma setitem_new_column (name : string) (col : list Z) (df : DataFrame) :
  index_of name (columns df) = None ->
  columns (setitem name col df) = (columns df ++ [name])%list.
Proof.
  intros H. unfold setitem. now rewrite H.
Qed.

Lemma derive_cars_Date (df : DataFrame) :
  index_of "Date" (columns (derive_cars df)) = index_of "Date" (columns df).
Proof.
  unfold derive_cars, add_plug_rollingSUM, add_otherULEVs.
  rewrite !setitem_other_column by discriminate. reflexivity.
Qed.

Lemma derive_cars_rows_length (df : DataFrame) :
  length (rows (derive_cars df)) = length (rows df).
Proof.
  unfold derive_cars, add_plug_rollingSUM.
  rewrite setitem_length by apply plug_values_length.
  unfold add_otherULEVs. apply setitem_length, sum_axis1_iloc_length.
Qed.

(** X10. The derivation of the two columns leaves the rest of the vehicle
    table as it was: the table keeps its rows and stays rectangular, every
    column other than [otherULEVs] and [plug_rollingSUM] reads as before, and
    when neither name was taken the two columns are appended on the right, in
    that order. *)
Theorem derive_cars_keeps_other_columns (df : DataFrame) :
  rectangular df ->
  rectangular (derive_cars df) /\
  length (rows (derive_cars df)) = length (rows df) /\
  (forall name, name <> "otherULEVs" -> name <> "plug_rollingSUM" ->
     getitem name (derive_cars df) = getitem name df) /\
  (index_of "otherULEVs" (columns df) = None ->
   index_of "plug_rollingSUM" (columns df) = None ->
   columns (derive_cars df) = (columns df ++ ["otherULEVs"; "plug_rollingSUM"])%list).
Proof.
  intros Hrect. split; [| split; [| split]].
  - unfold derive_cars, add_plug_rollingSUM.
    now apply setitem_rectangular, add_otherULEVs_rectangular.
  - apply derive_cars_rows_length.
  - intros name H1 H2. unfold derive_cars, add_plug_rollingSUM.
    rewrite getitem_setitem_other; auto.
    + unfold add_otherULEVs. rewrite getitem_setitem_other; auto.
      apply sum_axis1_iloc_length.
    + now apply add_otherULEVs_rectangular.
    + apply plug_values_length.
  - intros H1 H2. unfold derive_cars, add_plug_rollingSUM.
    rewrite setitem_new_column.
    + unfold add_otherULEVs. rewrite setitem_new_column by assumption.
      now rewrite <- app_assoc.
    + unfold add_otherULEVs. now rewrite setitem_other_column by discriminate.
Qed.

Lemma derive_cars_keeps_other_columns_witness :
  rectangular veh_three /\
  getitem "Date" (derive_cars veh_three) = Ok [2019; 2020; 2021] /\
  columns (derive_cars veh_three)
    = (columns veh_three ++ ["otherULEVs"; "plug_rollingSUM"])%list.
Proof.
  assert (H : rectangular veh_three) by (repeat constructor).
  destruct (derive_cars_keeps_other_columns veh_three H) as [_ [_ [Hget Hcols]]].
  split; [exact H |]. split.
  - rewrite Hget by discriminate. reflexivity.
  - apply Hcols; reflexivity.
Defined.

(** ** Where the script can stop *)

Lemma plug_array_derived (df : frame ChargerY) (veh0171 : DataFrame) :
  match index_of "Date" (columns veh0171) with
  | None => plug_array df (derive_cars veh0171) = Raise (KeyError "Date")
  | Some _ =>
      exists m p,
        ev_merged df (derive_cars veh0171) = Ok m /\
        plug_array df (derive_cars veh0171) = Ok p /\
        length p = length (merged_rows m)
  end.
Proof.
  unfold plug_array, ev_merged, merge. rewrite derive_cars_Date.
  destruct (index_of "Date" (columns veh0171)) as [j |]; [| reflexivity].
  eexists. cbn [bind]. unfold merged_getitem. cbn [right_columns merged_rows].
  destruct (setitem_has_column "plug_rollingSUM"
              (cumsum64 (sum_axis1 (iloc_cols 1 3 (add_otherULEVs veh0171))))
              (add_otherULEVs veh0171)) as [k Hk].
  fold (add_plug_rollingSUM (add_otherULEVs veh0171)) in Hk.
  fold (derive_cars veh0171) in Hk. rewrite Hk.
  eexists. split; [reflexivity |]. split; [reflexivity |]. apply length_map.
Qed.

(** X11. Read in the joined table, the [plug_rollingSUM] column is always
    there: on the vehicle table that the derivation leaves, the lookup of
    line 165 fails only when the join itself fails, which is exactly when
    the spreadsheet has no [Date] column; otherwise it has one entry per
    joined row. *)
Theorem plug_array_needs_only_Date (df : frame ChargerY) (veh0171 : DataFrame) :
  (index_of "Date" (columns veh0171) = None ->
     plug_array df (derive_cars veh0171) = Raise (KeyError "Date")) /\
  (index_of "Date" (columns veh0171) <> None ->
     exists m p,
       ev_merged df (derive_cars veh0171) = Ok m /\
       plug_array df (derive_cars veh0171) = Ok p /\
       length p = length (merged_rows m)).
Proof.
  pose proof (plug_array_derived df veh0171) as H.
  destruct (index_of "Date" (columns veh0171)) as [j |]; split; intros HDate;
    congruence || exact H.
Qed.

Lemma prepare_error (parse_year : string -> option Z) (registry : list Charger) (e : exn) :
  prepare parse_year registry = Raise e -> e = ParserError.
Proof.
  rewrite prepare_unfold. intros H.
  apply mapM_Raise in H. destruct H as [[l r] [_ H]]. simpl in H.
  unfold year_of in H. destruct (dateCreated r) as [s |].
  - destruct (parse_year s); cbn [bind] in H; [discriminate | congruence].
  - discriminate.
Qed.

Lemma np_divide_error (xs ys : list Z) (e : exn) :
  np_divide xs ys = Raise e -> e = ValueError.
Proof.
  unfold np_divide. destruct (Nat.eqb (length xs) (length ys)); [discriminate |].
  destruct xs as [| x [| x' xs]]; destruct ys as [| y [| y' ys]];
    try discriminate; congruence.
Qed.

(** X12. On the prepared registry table and the vehicle table that the
    derivation leaves, the lines from the join to the dictionary (137 and
    165-182) stop for one of three reasons only: the spreadsheet has no
    [Date] column, the two arrays of the division have lengths that do not
    fit, or the ratio series has no position 8.  The lookup of
    [plug_rollingSUM] and the in-service aggregate never fail. *)
Theorem ratio_2020_dict_stops_for_three_reasons
  (df : frame ChargerY) (veh0171 : DataFrame) (e : exn) :
  ratio_2020_dict df (derive_cars veh0171) = Raise e ->
  (e = KeyError "Date" /\ index_of "Date" (columns veh0171) = None)
  \/ (e = ValueError /\
      exists p, plug_array df (derive_cars veh0171) = Ok p /\
                length p <> length (chargers_avail df))
  \/ (e = IndexError /\
      exists r, ratio df (derive_cars veh0171) = Ok r /\ (length r <= 8)%nat).
Proof.
  unfold ratio_2020_dict, ratio.
  pose proof (plug_array_derived df veh0171) as HP.
  destruct (index_of "Date" (columns veh0171)) as [j |].
  - destruct HP as [m [p [_ [HPA _]]]]. rewrite HPA. cbn [bind].
    destruct (np_divide p (chargers_avail df)) as [r | e'] eqn:ND; cbn [bind].
    + unfold item. destruct (nth_error r 8) eqn:N8; cbn [bind]; [discriminate |].
      intros [= <-]. right; right. split; [reflexivity |].
      exists r. split; [reflexivity | now apply nth_error_None].
    + intros [= <-]. pose proof (np_divide_error _ _ _ ND) as ->.
      right; left. split; [reflexivity |].
      exists p. split; [reflexivity |].
      intros Hlen. rewrite (np_divide_same_length _ _ Hlen) in ND. discriminate.
  - rewrite HP. cbn [bind]. intros [= <-]. left. now split.
Qed.

Lemma ratio_2020_dict_stops_for_three_reasons_witness :
  ratio_2020_dict cleaned_five (derive_cars veh_one_row) = Raise IndexError /\
  exists r, ratio cleaned_five (derive_cars veh_one_row) = Ok r /\ (length r <= 8)%nat.
Proof.
  assert (H : ratio_2020_dict cleaned_five (derive_cars veh_one_row) = Raise IndexError)
    by reflexivity.
  split; [exact H |].
  destruct (ratio_2020_dict_stops_for_three_reasons _ _ _ H)
    as [[E _] | [[E _] | [_ Hex]]]; try discriminate E.
  exact Hex.
Defined.

Lemma np_divide_raises_iff (xs ys : list Z) :
  np_divide xs ys = Raise ValueError
  <-> length xs <> length ys /\ length xs <> 1%nat /\ length ys <> 1%nat.
Proof.
  split.
  - unfold np_divide. destruct (Nat.eqb_spec (length xs) (length ys)) as [E | E];
      [discriminate |].
    destruct xs as [| x [| x' xs]]; destruct ys as [| y [| y' ys]];
      try discriminate; intros _; simpl in *; repeat split; congruence.
  - intros [H [H1 H2]]. now apply np_divide_mismatch.
Qed.

(** X13. Once the join has succeeded, the division of line 179 raises
    [ValueError] exactly when the joined table and the in-service aggregate
    differ in their number of rows and neither has a single row; when it
    succeeds, the ratio series has as many entries as the joined table, or
    as the in-service aggregate when the joined table has a single row. *)
Theorem ratio_fits_or_raises (df : frame ChargerY) (veh0171 : DataFrame) (m : MergedFrame) :
  ev_merged df (derive_cars veh0171) = Ok m ->
  (ratio df (derive_cars veh0171) = Raise ValueError
   <-> length (merged_rows m) <> length (ev_chargers_in_service df)
       /\ length (merged_rows m) <> 1%nat
       /\ length (ev_chargers_in_service df) <> 1%nat) /\
  (forall r, ratio df (derive_cars veh0171) = Ok r ->
     length r = if Nat.eqb (length (merged_rows m)) 1
                then length (ev_chargers_in_service df)
                else length (merged_rows m)).
Proof.
  intros Hm. pose proof (plug_array_derived df veh0171) as HP.
  destruct (index_of "Date" (columns veh0171)) as [j |] eqn:E.
  - destruct HP as [m' [p [Hm' [HPA Hlen]]]].
    rewrite Hm in Hm'. injection Hm' as <-.
    unfold ratio. rewrite HPA. cbn [bind]. rewrite <- Hlen.
    replace (length (ev_chargers_in_service df)) with (length (chargers_avail df))
      by (unfold chargers_avail; apply length_map).
    split; [apply np_divide_raises_iff |].
    intros r Hr. apply np_divide_length in Hr.
    destruct (Nat.eqb_spec (length p) 1); lia.
  - unfold ev_merged, merge in Hm. rewrite derive_cars_Date, E in Hm. discriminate.
Qed.

Lemma ratio_fits_or_raises_witness :
  ev_merged cleaned_nine_ids (derive_cars veh_2020) = Ok joined_nine_one /\
  length (merged_rows joined_nine_one) = 1%nat /\
  length (ev_chargers_in_service cleaned_nine_ids) = 9%nat /\
  forall r, ratio cleaned_nine_ids (derive_cars veh_2020) = Ok r -> length r = 9%nat.
Proof.
  assert (H : ev_merged cleaned_nine_ids (derive_cars veh_2020) = Ok joined_nine_one)
    by reflexivity.
  split; [exact H |]. split; [reflexivity |]. split; [reflexivity |].
  exact (proj2 (ratio_fits_or_raises _ _ _ H)).
Defined.

(** ** The first and the last year *)

Lemma fold_min_spec (rest : list Z) : forall x,
  (fold_left Z.min rest x = x \/ In (fold_left Z.min rest x) rest) /\
  fold_left Z.min rest x <= x /\
  forall y, In y rest -> fold_left Z.min rest x <= y.
Proof.
  induction rest as [| y rest IH]; intros x; simpl.
  - split; [now left |]. split; [lia | contradiction].
  - destruct (IH (Z.min x y)) as [Hin [Hle Hall]].
    split; [| split].
    + destruct Hin as [Heq | Hin]; [| now right; right].
      rewrite Heq. destruct (Z.min_spec x y) as [[_ ->] | [_ ->]]; auto.
    + lia.
    + intros z [<- | Hz]; [lia | now apply Hall].
Qed.

Lemma fold_max_spec (rest : list Z) : forall x,
  (fold_left Z.max rest x = x \/ In (fold_left Z.max rest x) rest) /\
  x <= fold_left Z.max rest x /\
  forall y, In y rest -> y <= fold_left Z.max rest x.
Proof.
  induction rest as [| y rest IH]; intros x; simpl.
  - split; [now left |]. split; [lia | contradiction].
  - destruct (IH (Z.max x y)) as [Hin [Hle Hall]].
    split; [| split].
    + destruct Hin as [Heq | Hin]; [| now right; right].
      rewrite Heq. destruct (Z.max_spec x y) as [[_ ->] | [_ ->]]; auto.
    + lia.
    + intros z [<- | Hz]; [lia | now apply Hall].
Qed.

Lemma series_min_spec (xs : list Z) (m : Z) :
  series_min xs = Some m -> In m xs /\ forall x, In x xs -> m <= x.
Proof.
  destruct xs as [| x rest]; [discriminate |]. simpl. intros [= <-].
  destruct (fold_min_spec rest x) as [Hin [Hle Hall]].
  split; [destruct Hin as [-> | Hin]; auto |].
  intros z [<- | Hz]; [assumption | now apply Hall].
Qed.

Lemma series_max_spec (xs : list Z) (m : Z) :
  series_max xs = Some m -> In m xs /\ forall x, In x xs -> x <= m.
Proof.
  destruct xs as [| x rest]; [discriminate |]. simpl. intros [= <-].
  destruct (fold_max_spec rest x) as [Hin [Hle Hall]].
  split; [destruct Hin as [-> | Hin]; auto |].
  intros z [<- | Hz]; [assumption | now apply Hall].
Qed.

Lemma series_min_sorted (xs : list Z) :
  StronglySorted Z.le xs -> series_min xs = hd_error xs.
Proof.
  intros Hs. destruct xs as [| x rest]; [reflexivity |]. simpl. f_equal.
  inversion Hs as [| ? ? _ Hall]; subst. clear Hs.
  induction rest as [| y rest IH]; [reflexivity |]. simpl.
  inversion Hall; subst. rewrite Z.min_l by assumption. now apply IH.
Qed.

Lemma series_max_sorted (xs : list Z) :
  StronglySorted Z.le xs ->
  series_max xs = match xs with [] => None | _ :: _ => Some (last xs 0) end.
Proof.
  intros Hs. destruct xs as [| x rest]; [reflexivity |]. simpl series_max. f_equal.
  revert x Hs. induction rest as [| y rest IH]; intros x Hs; [reflexivity |].
  inversion Hs as [| ? ? Hs' Hall]; subst. inversion Hall; subst.
  simpl fold_left. rewrite Z.max_r by assumption.
  rewrite (IH y Hs'). now rewrite (last_cons (y :: rest) x 0), (last_cons rest y x),
    (last_cons rest y 0).
Qed.

Lemma ascending_is_non_decreasing (xs : list Z) :
  StronglySorted Z.lt xs -> StronglySorted Z.le xs.
Proof.
  induction 1 as [| x xs Hs IH Hall]; constructor; [assumption |].
  eapply Forall_impl; [| exact Hall]. intros; lia.
Qed.

(** X14. [first_year] and [last_year] of the bar chart's title are the
    earliest and the latest year found in the cleaned table, which are the
    years of the first and of the last row of the yearly aggregate; the title
    has no years exactly when no cleaned row has one. *)
Theorem first_and_last_year_of_installation (df : frame ChargerY) :
  let agg := chargers_installed df in
  (first_year agg = None <-> forall lr, In lr df -> yearCreated (snd lr) = None) /\
  (forall f, first_year agg = Some f ->
     (exists lr, In lr df /\ yearCreated (snd lr) = Some f) /\
     forall lr y, In lr df -> yearCreated (snd lr) = Some y -> f <= y) /\
  (forall l, last_year agg = Some l ->
     (exists lr, In lr df /\ yearCreated (snd lr) = Some l) /\
     forall lr y, In lr df -> yearCreated (snd lr) = Some y -> y <= l) /\
  first_year agg = hd_error (map yc_yearCreated agg) /\
  last_year agg = match agg with
                  | [] => None
                  | _ :: _ => Some (last (map yc_yearCreated agg) 0)
                  end.
Proof.
  intros agg.
  assert (Hkeys : forall y, In y (map yc_yearCreated agg)
                            <-> exists lr, In lr df /\ yearCreated (snd lr) = Some y).
  { intros y. unfold agg. rewrite chargers_installed_years, group_keys_In, in_map_iff.
    split; intros [lr H]; exists lr; tauto. }
  assert (Hsorted : StronglySorted Z.le (map yc_yearCreated agg)).
  { unfold agg. rewrite chargers_installed_years.
    apply ascending_is_non_decreasing, group_keys_sorted. }
  split; [| split; [| split; [| split]]].
  - unfold first_year. split.
    + intros Hnone lr Hin. destruct (yearCreated (snd lr)) as [y |] eqn:Y; [| reflexivity].
      assert (Hy : In y (map yc_yearCreated agg)) by (apply Hkeys; eauto).
      destruct (map yc_yearCreated agg); [contradiction | discriminate].
    + intros Hall. destruct (map yc_yearCreated agg) as [| y rest] eqn:E; [reflexivity |].
      assert (Hy : In y (y :: rest)) by (now left).
      apply Hkeys in Hy. destruct Hy as [lr [Hin Hy]]. rewrite (Hall lr Hin) in Hy.
      discriminate.
  - intros f Hf. apply series_min_spec in Hf. destruct Hf as [Hin Hmin].
    split; [now apply Hkeys |].
    intros lr y Hlr Hy. apply Hmin, Hkeys. eauto.
  - intros l Hl. apply series_max_spec in Hl. destruct Hl as [Hin Hmax].
    split; [now apply Hkeys |].
    intros lr y Hlr Hy. apply Hmax, Hkeys. eauto.
  - now apply series_min_sorted.
  - unfold last_year. rewrite (series_max_sorted _ Hsorted).
    now destruct agg.
Qed.

(** ** The order of the joined table *)

Lemma sorted_app {A : Type} (R : A -> A -> Prop) (xs ys : list A) :
  StronglySorted R xs -> StronglySorted R ys ->
  (forall x y, In x xs -> In y ys -> R x y) ->
  StronglySorted R (xs ++ ys).
Proof.
  induction 1 as [| x xs Hs IH Hall]; intros Hys Hcross; simpl; [assumption |].
  constructor.
  - apply IH; [assumption |]. intros a b Ha Hb. apply Hcross; [now right | assumption].
  - apply Forall_app. split; [assumption |].
    apply Forall_forall. intros b Hb. apply Hcross; [now left | assumption].
Qed.

Lemma constant_non_decreasing {A : Type} (c : Z) (l : list A) :
  StronglySorted Z.le (map (fun _ => c) l).
Proof.
  induction l as [| a l IH]; simpl; constructor; [assumption |].
  apply Forall_forall. intros x Hx. apply in_map_iff in Hx.
  destruct Hx as [_ [<- _]]. lia.
Qed.

(** The years of the joined rows, whatever vehicle rows each year matches. *)
Lemma joined_years_non_decreasing (g : YearCount -> list (list Z)) (left : list YearCount) :
  StronglySorted Z.lt (map yc_yearCreated left) ->
  StronglySorted Z.le
    (map (fun lr => yc_yearCreated (fst lr)) (flat_map (fun l => map (pair l) (g l)) left)).
Proof.
  induction left as [| l left IH]; simpl; intros Hs; [constructor |].
  inversion Hs as [| ? ? Hs' Hall]; subst. rewrite map_app. apply sorted_app.
  - rewrite map_map. simpl. apply constant_non_decreasing.
  - now apply IH.
  - intros x y Hx Hy. rewrite map_map in Hx. simpl in Hx.
    apply in_map_iff in Hx. destruct Hx as [_ [<- _]].
    apply in_map_iff in Hy. destruct Hy as [[l' r] [<- Hin]].
    apply in_flat_map in Hin. destruct Hin as [l'' [Hl'' Hin]].
    apply in_map_iff in Hin. destruct Hin as [r' [[= <- <-] _]]. simpl.
    rewrite Forall_forall in Hall.
    specialize (Hall (yc_yearCreated l'') (in_map _ _ _ Hl'')). lia.
Qed.

Lemma joined_years_ascending (g : YearCount -> list (list Z)) (left : list YearCount) :
  (forall l, (length (g l) <= 1)%nat) ->
  StronglySorted Z.lt (map yc_yearCreated left) ->
  StronglySorted Z.lt
    (map (fun lr => yc_yearCreated (fst lr)) (flat_map (fun l => map (pair l) (g l)) left)).
Proof.
  intros Hone. induction left as [| l left IH]; simpl; intros Hs; [constructor |].
  inversion Hs as [| ? ? Hs' Hall]; subst. rewrite map_app. apply sorted_app.
  - specialize (Hone l). destruct (g l) as [| r [| r' rest]]; simpl in *;
      [constructor | repeat constructor | lia].
  - now apply IH.
  - intros x y Hx Hy. rewrite map_map in Hx. simpl in Hx.
    apply in_map_iff in Hx. destruct Hx as [_ [<- _]].
    apply in_map_iff in Hy. destruct Hy as [[l' r] [<- Hin]].
    apply in_flat_map in Hin. destruct Hin as [l'' [Hl'' Hin]].
    apply in_map_iff in Hin. destruct Hin as [r' [[= <- <-] _]]. simpl.
    rewrite Forall_forall in Hall.
    exact (Hall (yc_yearCreated l'') (in_map _ _ _ Hl'')).
Qed.

Lemma one_row_per_key (j : nat) (k : Z) (table : list (list Z)) :
  NoDup (map (cell j) table) ->
  (length (filter (fun r => (cell j r =? k)%Z) table) <= 1)%nat.
Proof.
  induction table as [| r table IH]; simpl; intros Hnd; [lia |].
  inversion Hnd as [| ? ? Hr Hnd']; subst.
  destruct (Z.eqb_spec (cell j r) k) as [E | E]; [| now apply IH].
  simpl. replace (filter (fun r0 => cell j r0 =? k) table) with (@nil (list Z)); [simpl; lia |].
  symmetry. clear IH Hnd Hnd'.
  induction table as [| r' table IH]; simpl; [reflexivity |].
  destruct (Z.eqb_spec (cell j r') k) as [E' | E'].
  - exfalso. apply Hr. left. congruence.
  - apply IH. intros Hin. apply Hr. now right.
Qed.

(** X15. The joined table is in year order: its [Date] column never
    decreases from a row to the next, so the first and the last year of the
    line chart's title are those of its first and of its last row; when no
    year occurs twice in the vehicle table, none occurs twice in the joined
    table. *)
Theorem joined_table_in_year_order
  (df : frame ChargerY) (data_ev_cars : DataFrame) (m : MergedFrame) :
  ev_merged df data_ev_cars = Ok m ->
  exists dates,
    merged_getitem "Date" m = Ok dates /\
    StronglySorted Z.le dates /\
    merged_first_year m = Ok (hd_error dates) /\
    merged_last_year m
      = Ok (match dates with [] => None | _ :: _ => Some (last dates 0) end) /\
    (forall all_dates, getitem "Date" data_ev_cars = Ok all_dates ->
       NoDup all_dates -> StronglySorted Z.lt dates).
Proof.
  intros Hm. unfold ev_merged in Hm.
  destruct (merge_rows _ _ _ Hm) as [j [Hj [Hcols Hrows]]].
  exists (map (fun lr => yc_yearCreated (fst lr)) (merged_rows m)).
  assert (Hdates : merged_getitem "Date" m
                   = Ok (map (fun lr => yc_yearCreated (fst lr)) (merged_rows m))).
  { unfold merged_getitem. rewrite Hcols, Hj. f_equal.
    apply map_ext_in. intros [l r] Hin. apply Hrows in Hin. simpl. tauto. }
  assert (Hshape : merged_rows m
                   = flat_map (fun l => map (pair l)
                                 (filter (fun r => cell j r =? yc_yearCreated l)
                                         (rows data_ev_cars)))
                              (chargers_installed df)).
  { unfold merge in Hm. rewrite Hj in Hm. now injection Hm as <-. }
  assert (Hkeys : StronglySorted Z.lt (map yc_yearCreated (chargers_installed df))).
  { rewrite chargers_installed_years. apply group_keys_sorted. }
  assert (Hsorted : StronglySorted Z.le
                      (map (fun lr => yc_yearCreated (fst lr)) (merged_rows m))).
  { rewrite Hshape. now apply joined_years_non_decreasing. }
  split; [exact Hdates |]. split; [exact Hsorted |]. split; [| split].
  - unfold merged_first_year. rewrite Hdates. cbn [bind].
    now rewrite (series_min_sorted _ Hsorted).
  - unfold merged_last_year. rewrite Hdates. cbn [bind].
    now rewrite (series_max_sorted _ Hsorted).
  - intros all_dates Hall Hnd. unfold getitem in Hall. rewrite Hj in Hall.
    injection Hall as <-. rewrite Hshape.
    apply joined_years_ascending; [| assumption].
    intros l. now apply one_row_per_key.
Qed.

Lemma joined_table_in_year_order_witness :
  ev_merged cleaned_five (derive_cars veh_three) = Ok joined_five_three /\
  exists dates,
    merged_getitem "Date" joined_five_three = Ok dates /\
    StronglySorted Z.le dates /\
    merged_first_year joined_five_three = Ok (hd_error dates) /\
    merged_last_year joined_five_three
      = Ok (match dates with [] => None | _ :: _ => Some (last dates 0) end) /\
    (forall all_dates, getitem "Date" (derive_cars veh_three) = Ok all_dates ->
       NoDup all_dates -> StronglySorted Z.lt dates).
Proof.
  assert (H : ev_merged cleaned_five (derive_cars veh_three) = Ok joined_five_three)
    by reflexivity.
  split; [exact H |].
  exact (joined_table_in_year_order _ _ _ H).
Defined.

Lemma filter_none {A : Type} (p : A -> bool) (l : list A) :
  (forall a, In a l -> p a = false) -> filter p l = [].
Proof.
  induction l as [| a l IH]; simpl; intros H; [reflexivity |].
  rewrite (H a (or_introl eq_refl)). apply IH. intros b Hb. apply H. now right.
Qed.

(** In a table sorted on a key, the rows of key [k] come before the rows of
    any larger key. *)
Lemma rows_of_key_come_first {A : Type} (f : A -> Z) (k : Z) (ks : list Z) (table : list A) :
  StronglySorted Z.le (map f table) ->
  Forall (fun k' => k < k') ks ->
  filter (fun r => (f r =? k) || existsb (Z.eqb (f r)) ks) table
  = (filter (fun r => f r =? k) table
     ++ filter (fun r => existsb (Z.eqb (f r)) ks) table)%list.
Proof.
  intros Hs Hks. rewrite Forall_forall in Hks.
  induction table as [| r table IH]; simpl; [reflexivity |].
  simpl in Hs. inversion Hs as [| ? ? Hs' Hall]; subst. specialize (IH Hs').
  destruct (Z.eqb_spec (f r) k) as [E | E]; simpl.
  - assert (X : existsb (Z.eqb (f r)) ks = false).
    { destruct (existsb (Z.eqb (f r)) ks) eqn:X; [| reflexivity].
      apply existsb_exists in X. destruct X as [k' [Hk' Heq]].
      apply Z.eqb_eq in Heq. specialize (Hks k' Hk'). lia. }
    rewrite X. now rewrite IH.
  - destruct (existsb (Z.eqb (f r)) ks) eqn:X; [| exact IH].
    rewrite IH. apply existsb_exists in X. destruct X as [k' [Hk' Heq]].
    apply Z.eqb_eq in Heq. specialize (Hks k' Hk').
    rewrite (filter_none (fun r0 => f r0 =? k) table); [reflexivity |].
    intros r' Hr'. apply Z.eqb_neq. rewrite Forall_forall in Hall.
    specialize (Hall (f r') (in_map f _ _ Hr')). lia.
Qed.

Lemma rows_by_key_is_restriction {A : Type} (f : A -> Z) (table : list A) (ks : list Z) :
  StronglySorted Z.le (map f table) ->
  StronglySorted Z.lt ks ->
  flat_map (fun k => filter (fun r => f r =? k) table) ks
  = filter (fun r => existsb (Z.eqb (f r)) ks) table.
Proof.
  intros Htable Hks. induction Hks as [| k ks Hks IH Hall]; simpl.
  - symmetry. now apply filter_none.
  - rewrite IH. symmetry. now apply rows_of_key_come_first.
Qed.

Lemma joined_vehicle_rows (g : Z -> list (list Z)) (left : list YearCount) :
  map snd (flat_map (fun l => map (pair l) (g (yc_yearCreated l))) left)
  = flat_map g (map yc_yearCreated left).
Proof.
  induction left as [| l left IH]; simpl; [reflexivity |].
  rewrite map_app, IH. f_equal. rewrite map_map. simpl. apply map_id.
Qed.

(** X16. When the vehicle table is in year order, the join takes nothing out
    of order: the vehicle rows of the joined table are the rows of the
    vehicle table whose [Date] is a year of the yearly charger aggregate, in
    the order of the vehicle table, and [plug_array] is the [plug_rollingSUM]
    column read off those rows. *)
Theorem join_restricts_vehicle_table
  (df : frame ChargerY) (data_ev_cars : DataFrame) (m : MergedFrame) (dates : list Z) :
  ev_merged df data_ev_cars = Ok m ->
  getitem "Date" data_ev_cars = Ok dates ->
  StronglySorted Z.le dates ->
  exists j,
    index_of "Date" (columns data_ev_cars) = Some j /\
    map snd (merged_rows m)
      = filter (fun r => existsb (Z.eqb (cell j r))
                                 (map yc_yearCreated (chargers_installed df)))
               (rows data_ev_cars) /\
    forall k, index_of "plug_rollingSUM" (columns data_ev_cars) = Some k ->
      plug_array df data_ev_cars
      = Ok (map (cell k)
              (filter (fun r => existsb (Z.eqb (cell j r))
                                        (map yc_yearCreated (chargers_installed df)))
                      (rows data_ev_cars))).
Proof.
  intros Hm Hdates Hsorted. unfold getitem in Hdates.
  destruct (index_of "Date" (columns data_ev_cars)) as [j |] eqn:Hj; [| discriminate].
  injection Hdates as <-. exists j. split; [reflexivity |].
  assert (Hshape : map snd (merged_rows m)
                   = filter (fun r => existsb (Z.eqb (cell j r))
                                        (map yc_yearCreated (chargers_installed df)))
                            (rows data_ev_cars)).
  { unfold ev_merged, merge in Hm. rewrite Hj in Hm. injection Hm as <-. simpl.
    rewrite (joined_vehicle_rows
               (fun k => filter (fun r => cell j r =? k) (rows data_ev_cars))).
    apply rows_by_key_is_restriction; [assumption |].
    rewrite chargers_installed_years. apply group_keys_sorted. }
  split; [exact Hshape |].
  intros k Hk. unfold plug_array. rewrite Hm. cbn [bind]. unfold merged_getitem.
  replace (right_columns m) with (columns data_ev_cars).
  - rewrite Hk. f_equal. rewrite <- Hshape. now rewrite map_map.
  - unfold ev_merged, merge in Hm. rewrite Hj in Hm. now injection Hm as <-.
Qed.

Lemma join_restricts_vehicle_table_witness :
  ev_merged cleaned_five (derive_cars veh_three) = Ok joined_five_three /\
  getitem "Date" (derive_cars veh_three) = Ok [2019; 2020; 2021] /\
  plug_array cleaned_five (derive_cars veh_three) = Ok [110; 260].
Proof.
  assert (Hm : ev_merged cleaned_five (derive_cars veh_three) = Ok joined_five_three)
    by reflexivity.
  assert (Hd : getitem "Date" (derive_cars veh_three) = Ok [2019; 2020; 2021])
    by reflexivity.
  assert (Hs : StronglySorted Z.le [2019; 2020; 2021])
    by (repeat constructor; lia).
  split; [exact Hm |]. split; [exact Hd |].
  destruct (join_restricts_vehicle_table _ _ _ _ Hm Hd Hs) as [j [Hj [_ Hplug]]].
  injection Hj as <-.
  exact (Hplug 8%nat eq_refl).
Defined.

(** ** The order of the registry lines *)

Lemma ascending_lists_equal (ks : list Z) : forall ks',
  StronglySorted Z.lt ks -> StronglySorted Z.lt ks' ->
  (forall x, In x ks <-> In x ks') -> ks = ks'.
Proof.
  induction ks as [| k ks IH]; intros [| k' ks'] Hs Hs' Hsame.
  - reflexivity.
  - exfalso. apply (Hsame k'). now left.
  - exfalso. apply (Hsame k). now left.
  - inversion Hs as [| ? ? Hs1 Hall]; inversion Hs' as [| ? ? Hs1' Hall']; subst.
    rewrite Forall_forall in Hall, Hall'.
    assert (k = k').
    { destruct (proj1 (Hsame k) (or_introl eq_refl)) as [E | Hin]; [auto |].
      destruct (proj2 (Hsame k') (or_introl eq_refl)) as [E | Hin']; [auto |].
      specialize (Hall _ Hin'). specialize (Hall' _ Hin). lia. }
    subst k'. f_equal. apply IH; auto.
    intros x. split; intros Hx.
    + destruct (proj1 (Hsame x) (or_intror Hx)) as [E | Hin]; [| assumption].
      specialize (Hall _ Hx). lia.
    + destruct (proj2 (Hsame x) (or_intror Hx)) as [E | Hin]; [| assumption].
      specialize (Hall' _ Hx). lia.
Qed.

Lemma count_where_Permutation {A : Type} (f : A -> bool) (l l' : list A) :
  Permutation l l' -> count_where f l = count_where f l'.
Proof.
  induction 1 as [| a l l' _ IH | a b l | l l' l'' _ IH1 _ IH2].
  - reflexivity.
  - rewrite !count_where_cons. lia.
  - rewrite !count_where_cons. lia.
  - congruence.
Qed.

Lemma groupby_count_Permutation (df df' : frame ChargerY) :
  Permutation df df' -> groupby_count df = groupby_count df'.
Proof.
  intros Hperm. unfold groupby_count.
  assert (Hkeys : group_keys (map (fun lr => yearCreated (snd lr)) df)
                  = group_keys (map (fun lr => yearCreated (snd lr)) df')).
  { apply ascending_lists_equal; try apply group_keys_sorted.
    intros k. rewrite !group_keys_In.
    pose proof (Permutation_map (fun lr : nat * ChargerY => yearCreated (snd lr)) Hperm)
      as Hmap.
    split; intros Hin.
    - eapply Permutation_in; eauto.
    - eapply Permutation_in; [apply Permutation_sym |]; eauto. }
  rewrite Hkeys. apply map_ext. intros k. f_equal.
  unfold group_count. now apply count_where_Permutation.
Qed.

(** X17. The two aggregates do not depend on the order of the lines of the
    registry: tables that hold the same rows in another order give the same
    yearly aggregate and the same in-service aggregate. *)
Theorem aggregates_ignore_row_order (df df' : frame ChargerY) :
  Permutation df df' ->
  chargers_installed df = chargers_installed df' /\
  ev_chargers_in_service df = ev_chargers_in_service df' /\
  chargers_avail df = chargers_avail df'.
Proof.
  intros Hperm.
  assert (H1 : chargers_installed df = chargers_installed df').
  { unfold chargers_installed. now rewrite (groupby_count_Permutation df df'). }
  assert (H2 : ev_chargers_in_service df = ev_chargers_in_service df').
  { unfold ev_chargers_in_service.
    rewrite (groupby_count_Permutation
               (filter (fun lr => in_service_before_2021 (snd lr)) df)
               (filter (fun lr => in_service_before_2021 (snd lr)) df')); [reflexivity |].
    clear H1. induction Hperm as [| a l l' _ IH | a b l | l l' l'' _ IH1 _ IH2]; simpl.
    - constructor.
    - destruct (in_service_before_2021 (snd a)); [now constructor | assumption].
    - destruct (in_service_before_2021 (snd a)), (in_service_before_2021 (snd b));
        try apply Permutation_refl. apply perm_swap.
    - eapply Permutation_trans; eauto. }
  split; [exact H1 |]. split; [exact H2 |].
  unfold chargers_avail. now rewrite H2.
Qed.

Lemma aggregates_ignore_row_order_witness :
  Permutation cleaned_missing_id (rev cleaned_missing_id) /\
  chargers_installed cleaned_missing_id = chargers_installed (rev cleaned_missing_id).
Proof.
  assert (H : Permutation cleaned_missing_id (rev cleaned_missing_id))
    by apply Permutation_rev.
  split; [exact H |].
  exact (proj1 (aggregates_ignore_row_order _ _ H)).
Defined.

(** ** Repeated rows of the vehicle table *)

Lemma row_eqb_eq (r : list Z) : forall r', row_eqb r r' = true <-> r = r'.
Proof.
  induction r as [| c r IH]; intros [| c' r']; simpl; try (split; congruence).
  rewrite andb_true_iff, Z.eqb_eq, IH. split; [intros [-> ->] | intros [= -> ->]]; auto.
Qed.

Lemma seen_before (r : list Z) (seen : list (list Z)) :
  existsb (row_eqb r) seen = true <-> In r seen.
Proof.
  rewrite existsb_exists. split.
  - intros [r' [Hin Heq]]. apply row_eqb_eq in Heq. now subst.
  - intros Hin. exists r. split; [assumption | now apply row_eqb_eq].
Qed.

Lemma no_row_marked (table : list (list Z)) : forall seen,
  count_where (fun b : bool => b) (duplicated_from seen table) = 0
  <-> NoDup table /\ forall r, In r table -> ~ In r seen.
Proof.
  induction table as [| r table IH]; intros seen; simpl duplicated_from.
  - split; [intros _; split; [constructor | contradiction] | reflexivity].
  - rewrite count_where_cons.
    pose proof (count_where_nonneg (fun b : bool => b) (duplicated_from (r :: seen) table)) as Hpos.
    destruct (existsb (row_eqb r) seen) eqn:X.
    + apply seen_before in X. split; [lia |].
      intros [_ Hfresh]. exfalso. apply (Hfresh r); [now left | assumption].
    + assert (Hr : ~ In r seen).
      { intros Hin. apply seen_before in Hin. congruence. }
      rewrite Z.add_0_l, IH. split.
      * intros [Hnd Hfresh]. split.
        -- constructor; [| assumption]. intros Hin. apply (Hfresh r Hin). now left.
        -- intros r' [<- | Hin]; [assumption |].
           intros Hseen. apply (Hfresh r' Hin). now right.
      * intros [Hnd Hfresh]. inversion Hnd as [| ? ? Hnotin Hnd']; subst.
        split; [assumption |].
        intros r' Hin [<- | Hseen]; [contradiction |].
        apply (Hfresh r'); [now right | assumption].
Qed.

(** X18. The count of repeated rows printed for the vehicle table marks one
    flag per row, is never negative, and is zero exactly when no two rows of
    the table have the same cells. *)
Theorem duplicated_sum_zero_iff_distinct (df : DataFrame) :
  length (duplicated df) = length (rows df) /\
  0 <= duplicated_sum df <= Z.of_nat (length (rows df)) /\
  (duplicated_sum df = 0 <-> NoDup (rows df)).
Proof.
  assert (Hlen : forall table seen,
            length (duplicated_from seen table) = length table).
  { induction table as [| r table IH]; intros seen; simpl; [| rewrite IH]; reflexivity. }
  unfold duplicated_sum, duplicated. split; [apply Hlen |]. split.
  - split; [apply count_where_nonneg |].
    unfold count_where. rewrite <- (Hlen (rows df) []).
    apply inj_le, filter_length_le.
  - rewrite no_row_marked. split; [tauto |].
    intros Hnd. split; [assumption | intros r _ []].
Qed.
